(** * okx-hft-collector: a shallow embedding of the batching pipeline,
      the in-memory L2 order book and the session supervisor.

    Sources embedded (paths under src/src/okx_hft):
    - handlers/orderbook_l2.py  (OrderBookL2)
    - handlers/orderbook.py     (OrderBookHandler)
    - handlers/trades.py        (TradesHandler)
    - handlers/funding_rate.py  (FundingRateHandler; mark_price.py,
                                 tickers.py and open_interest.py share its
                                 code verbatim up to names)
    - ws/client.py, run.py      (OKXWebSocketClient, main)

    Numbers.  A Python float is an IEEE binary64 value ([pyfloat]): a
    finite value is the dyadic rational it denotes, in lowest terms,
    besides the two infinities and NaN.  The sign of a zero is not kept:
    the code only compares, converts and stores numbers, and
    -0.0 == 0.0.  [float()] and [int()] on a string follow CPython:
    surrounding whitespace is stripped, [_] is allowed between two
    digits, [float()] accepts exponents and the words inf, infinity and
    nan in any case and rounds to the nearest binary64 value (ties to
    even, inf from 2^1024 on), [int()] refuses more than 4300 digits.  A
    Rocq [string] is read as Latin-1 text, one code point per byte.
    Exceptions are values of [res]: a conversion raises ValueError,
    TypeError or OverflowError, and each handler catches what its
    [except] clause names.

    Sorting.  The book's sides are sorted by [float()] of the price with
    a stable insertion sort.  It returns what Python's [sorted] returns
    whenever no key is NaN.  With a NaN key [<] is no longer a total
    order and CPython's result depends on how its merge sort splits the
    list into runs, which is not modelled: the properties about the
    order of a side assume NaN-free prices. *)

From Stdlib Require Import List String Ascii ZArith QArith Bool Lia Psatz Permutation.
Import ListNotations.
Open Scope string_scope.

(* ------------------------------------------------------------------ *)
(** ** Exceptions *)

(** The exceptions the builtin conversions raise. *)
Inductive pyexc := ValueError | TypeError | OverflowError.

(** A computation that returns a value or raises. *)
Inductive res (A : Type) : Type :=
| Ok (a : A)
| Raise (e : pyexc).
Arguments Ok {A} a.
Arguments Raise {A} e.

Definition res_bind {A B : Type} (m : res A) (k : A -> res B) : res B :=
  match m with Ok a => k a | Raise e => Raise e end.

Notation "'let!' x ':=' m 'in' k" := (res_bind m (fun x => k))
  (at level 200, x name, m at level 100, k at level 200).

Definition res_map {A B : Type} (f : A -> B) (m : res A) : res B :=
  let! a := m in Ok (f a).

(** [try: ... except Exception]: the value, or [None] when anything is
    raised. *)
Definition ok_opt {A : Type} (m : res A) : option A :=
  match m with Ok a => Some a | Raise _ => None end.

(** [try: return ... except (ValueError, TypeError): return None]. *)
Definition catch_vt {A : Type} (m : res A) : res (option A) :=
  match m with
  | Ok a => Ok (Some a)
  | Raise ValueError | Raise TypeError => Ok None
  | Raise OverflowError => Raise OverflowError
  end.

Definition raises {A : Type} (m : res A) : bool :=
  match m with Ok _ => false | Raise _ => true end.

(* ------------------------------------------------------------------ *)
(** ** Python floats *)

Inductive pyfloat :=
| FFin (q : Q)        (** a finite value, in lowest terms *)
| FInf (neg : bool)   (** [inf], or [-inf] when [neg] *)
| FNaN.

Definition Qltb (x y : Q) : bool := negb (Qle_bool y x).

(** 2^k as a rational, for any integer k. *)
Definition pow2 (k : Z) : Q :=
  if (0 <=? k)%Z then inject_Z (2 ^ k) else 1 # Z.to_pos (2 ^ (- k)).

(** floor(log2(n / d)), for n, d > 0. *)
Definition flog2 (n d : Z) : Z :=
  let e := (Z.log2 n - Z.log2 d)%Z in
  if Qle_bool (pow2 e) (n # Z.to_pos d) then e else (e - 1)%Z.

(** n / d rounded to an integer, ties to even (n >= 0, d > 0). *)
Definition rhe (n d : Z) : Z :=
  let q := (n / d)%Z in
  match Z.compare (2 * (n mod d)) d with
  | Lt => q
  | Gt => (q + 1)%Z
  | Eq => if Z.even q then q else (q + 1)%Z
  end.

(** The binary64 value nearest to n / d (n, d > 0), ties to even: the
    quantum is 2^(e-52) for a value in [2^e, 2^(e+1)), and 2^-1074 in
    the subnormal range; a result of 2^1024 or more is [inf]. *)
Definition round_pos (n d : Z) : pyfloat :=
  let qe := Z.max (flog2 n d - 52) (-1074) in
  let m := if (qe <? 0)%Z then rhe (n * 2 ^ (- qe)) d else rhe n (d * 2 ^ qe) in
  let v := Qmult (inject_Z m) (pow2 qe) in
  if Qle_bool (pow2 1024) v then FInf false else FFin (Qred v).

Definition fneg (x : pyfloat) : pyfloat :=
  match x with FFin q => FFin (Qopp q) | FInf n => FInf (negb n) | FNaN => FNaN end.

(** An exact rational result rounded to binary64. *)
Definition round_q (x : Q) : pyfloat :=
  match Qnum x with
  | Z0 => FFin 0
  | Zpos p => round_pos (Zpos p) (Zpos (Qden x))
  | Zneg p => fneg (round_pos (Zpos p) (Zpos (Qden x)))
  end.

(** [x < y]; every comparison with NaN is false. *)
Definition flt_lt (x y : pyfloat) : bool :=
  match x, y with
  | FFin a, FFin b => Qltb a b
  | FInf true, FInf false | FInf true, FFin _ | FFin _, FInf false => true
  | _, _ => false
  end.
Arguments flt_lt : simpl nomatch.

Definition is_nan (x : pyfloat) : bool := match x with FNaN => true | _ => false end.

(** [x + y], [x - y] and [x * y]. *)
Definition fadd (x y : pyfloat) : pyfloat :=
  match x, y with
  | FFin a, FFin b => round_q (Qplus a b)
  | FInf a, FInf b => if Bool.eqb a b then FInf a else FNaN
  | FInf a, FFin _ | FFin _, FInf a => FInf a
  | _, _ => FNaN
  end.

Definition fsub (x y : pyfloat) : pyfloat := fadd x (fneg y).

Definition fmul (x y : pyfloat) : pyfloat :=
  match x, y with
  | FFin a, FFin b => round_q (Qmult a b)
  | FInf a, FInf b => FInf (xorb a b)
  | FInf a, FFin b | FFin b, FInf a =>
      if Qeq_bool b 0 then FNaN else FInf (xorb a (Qltb b 0))
  | _, _ => FNaN
  end.

(* ------------------------------------------------------------------ *)
(** ** [int()] and [float()] on a str *)

Definition digit_of (c : ascii) : option Z :=
  let n := nat_of_ascii c in
  if (48 <=? n)%nat && (n <=? 57)%nat then Some (Z.of_nat (n - 48)) else None.

Definition is_digit (c : ascii) : bool :=
  match digit_of c with Some _ => true | None => false end.

Fixpoint digits_val (acc : Z) (cs : list ascii) : option Z :=
  match cs with
  | [] => Some acc
  | c :: t =>
      match digit_of c with
      | Some d => digits_val (acc * 10 + d) t
      | None => None
      end
  end.

(** The characters both conversions strip: [Py_ISSPACE] after
    [_PyUnicode_TransformDecimalAndSpaceToASCII], that is ASCII tab, line
    feed, vertical tab, form feed, carriage return and space, and the
    Latin-1 spaces U+0085 and U+00A0, which the transform turns into a
    space. *)
Definition py_space (c : ascii) : bool :=
  let n := nat_of_ascii c in
  ((9 <=? n) && (n <=? 13))%nat || (n =? 32)%nat || (n =? 133)%nat || (n =? 160)%nat.

Fixpoint drop_space (cs : list ascii) : list ascii :=
  match cs with
  | c :: t => if py_space c then drop_space t else cs
  | [] => []
  end.

Definition strip_space (cs : list ascii) : list ascii := rev (drop_space (rev (drop_space cs))).

Definition take_sign (cs : list ascii) : bool * list ascii :=
  match cs with
  | "-"%char :: t => (true, t)
  | "+"%char :: t => (false, t)
  | _ => (false, cs)
  end.

(** The rule on [_] of [_Py_string_to_number_with_underscores] (float)
    and of the digit loop of [long_from_string_base] (int): every [_]
    sits between two digits; the underscores are then dropped.  [prev]
    is the character before [cs], NUL at the start. *)
Fixpoint drop_underscores (prev : ascii) (cs : list ascii) : option (list ascii) :=
  match cs with
  | [] => if Ascii.eqb prev "_" then None else Some []
  | c :: t =>
      if Ascii.eqb c "_" then
        if is_digit prev then drop_underscores c t else None
      else if Ascii.eqb prev "_" && negb (is_digit c) then None
      else option_map (cons c) (drop_underscores c t)
  end.

(** [int(s)] on a str ([PyLong_FromUnicodeObject], base 10): spaces, a
    sign, then [digit ([_] digit)*], then spaces; more than 4300 digits
    raise ValueError. *)
Definition py_int_str (s : string) : option Z :=
  let '(neg, body) := take_sign (strip_space (list_ascii_of_string s)) in
  match drop_underscores "000"%char body with
  | Some ((_ :: _) as ds) =>
      if (Z.of_nat (List.length ds) <=? 4300)%Z
      then option_map (fun n => if neg then Z.opp n else n) (digits_val 0 ds)
      else None
  | _ => None
  end.

Fixpoint span_digits (cs : list ascii) : list ascii * list ascii :=
  match cs with
  | c :: t => if is_digit c then let '(a, b) := span_digits t in (c :: a, b) else ([], cs)
  | [] => ([], [])
  end.

Fixpoint drop_zeros (cs : list ascii) : list ascii :=
  match cs with
  | "0"%char :: t => drop_zeros t
  | _ => cs
  end.

Definition lower (c : ascii) : ascii :=
  let n := nat_of_ascii c in
  if ((65 <=? n) && (n <=? 90))%nat then ascii_of_nat (n + 32) else c.

(** [_Py_parse_inf_or_nan] on an unsigned body consumed whole. *)
Definition special_word (cs : list ascii) : option pyfloat :=
  let w := string_of_list_ascii (map lower cs) in
  if String.eqb w "inf" || String.eqb w "infinity" then Some (FInf false)
  else if String.eqb w "nan" then Some FNaN
  else None.

(** [MAX_DIGITS] of [_Py_dg_strtod]. *)
Definition max_digits : Z := 1000000000.

(** [_Py_dg_strtod] on an unsigned body consumed whole:
    [digits [. digits] [(e|E) [+|-] digits]] with at least one digit
    before the exponent; more than [max_digits] significant or
    fractional digits are refused.  The result [(n, x)] stands for the
    exact value n * 10^x. *)
Definition parse_decimal (cs : list ascii) : option (Z * Z) :=
  let '(ip, r1) := span_digits cs in
  let '(fp, r2) := match r1 with "."%char :: t => span_digits t | _ => ([], r1) end in
  let mant := List.app ip fp in
  let ex :=
    match r2 with
    | [] => Some 0%Z
    | e :: t =>
        if Ascii.eqb e "e" || Ascii.eqb e "E" then
          let '(eneg, t1) := take_sign t in
          match span_digits t1 with
          | ((_ :: _) as ed, []) =>
              option_map (fun x => if eneg then Z.opp x else x) (digits_val 0 ed)
          | _ => None
          end
        else None
    end in
  match mant, ex with
  | [], _ | _, None => None
  | _, Some x =>
      if (max_digits <? Z.of_nat (List.length (drop_zeros mant)))%Z
         || (max_digits <? Z.of_nat (List.length fp))%Z then None
      else option_map (fun n => (n, x - Z.of_nat (List.length fp))%Z) (digits_val 0 mant)
  end.

(** The binary64 value of n * 10^x, for 0 <= n < 10^len.  Besides
    [round_q], two shortcuts give the rounded value directly and keep
    huge exponents computable: from 10^309 on the value is past the
    largest float ([inf]), and below 10^-325 it is less than half of
    the smallest subnormal 2^-1074 (zero). *)
Definition dec_to_float (n x len : Z) : pyfloat :=
  if (n =? 0)%Z then FFin 0
  else if (309 <=? x)%Z then FInf false
  else if (len + x <=? -325)%Z then FFin 0
  else round_q (if (0 <=? x)%Z then inject_Z (n * 10 ^ x) else n # Z.to_pos (10 ^ (- x))).

(** [float(s)] on a str ([PyFloat_FromString]); [None] is ValueError. *)
Definition py_float_str (s : string) : option pyfloat :=
  match drop_underscores "000"%char (list_ascii_of_string s) with
  | None => None
  | Some cs =>
      let '(neg, body) := take_sign (strip_space cs) in
      let sgn f := if neg then fneg f else f in
      match special_word body with
      | Some f => Some (sgn f)
      | None =>
          match parse_decimal body with
          | Some (n, x) => Some (sgn (dec_to_float n x (Z.of_nat (List.length body))))
          | None => None
          end
      end
  end.

(* ------------------------------------------------------------------ *)
(** ** Conversions of JSON values *)

(** The JSON values the handlers read through [dict.get]; [PObj] is an
    array or an object. *)
Inductive pyval :=
| PInt (z : Z)
| PBool (b : bool)
| PFloat (f : pyfloat)
| PStr (s : string)
| PNone
| PObj.

(** [int(x)] on a float: truncation toward zero. *)
Definition float_to_int (f : pyfloat) : res Z :=
  match f with
  | FFin q => Ok (Z.quot (Qnum q) (Zpos (Qden q)))
  | FInf _ => Raise OverflowError
  | FNaN => Raise ValueError
  end.

(** [float(n)] on an int, also done by [float * int]: rounded, and
    OverflowError when the result would be infinite. *)
Definition int_to_float (z : Z) : res pyfloat :=
  match round_q (inject_Z z) with
  | FInf _ => Raise OverflowError
  | f => Ok f
  end.

(** [int(v)]. *)
Definition py_int_r (v : pyval) : res Z :=
  match v with
  | PInt z => Ok z
  | PBool b => Ok (if b then 1%Z else 0%Z)
  | PFloat f => float_to_int f
  | PStr s => match py_int_str s with Some z => Ok z | None => Raise ValueError end
  | PNone | PObj => Raise TypeError
  end.

(** [float(v)]. *)
Definition py_float_r (v : pyval) : res pyfloat :=
  match v with
  | PInt z => int_to_float z
  | PBool b => Ok (FFin (if b then 1 else 0))
  | PFloat f => Ok f
  | PStr s => match py_float_str s with Some f => Ok f | None => Raise ValueError end
  | PNone | PObj => Raise TypeError
  end.

(** [int(v)] under an [except Exception]. *)
Definition py_int (v : pyval) : option Z := ok_opt (py_int_r v).

(** [d.get(k, default)] with [d] an association list; [None] is "key absent". *)
Definition get_or (d : option pyval) (default : pyval) : pyval :=
  match d with Some v => v | None => default end.

(** [min(a, b)]: the first argument unless the second is smaller. *)
Definition py_min (a b : pyfloat) : pyfloat := if flt_lt b a then b else a.

(* ------------------------------------------------------------------ *)
(** ** OrderedDict[str, str] as an association list *)

Module OD.

Definition t := list (string * string).

(** [d[k] = v]: an existing key keeps its position, a new key goes last. *)
Fixpoint set (k v : string) (d : t) : t :=
  match d with
  | [] => [(k, v)]
  | (k', v') :: r => if String.eqb k k' then (k, v) :: r else (k', v') :: set k v r
  end.

(** [d.pop(k, None)]. *)
Definition pop (k : string) (d : t) : t :=
  filter (fun kv => negb (String.eqb (fst kv) k)) d.

Fixpoint lookup (k : string) (d : t) : option string :=
  match d with
  | [] => None
  | (k', v) :: r => if String.eqb k k' then Some v else lookup k r
  end.

Definition keys (d : t) : list string := map fst d.

End OD.

(** [OrderedDict(sorted(d.items(), key=lambda x: float(x[0]), reverse=rev))].
    The keys are computed first; an unparsable key raises ValueError
    ([None]).  Python's sort is stable, also with [reverse=True]; the
    insertion sort below returns the same list when no key is NaN. *)
Fixpoint insert_by (rev : bool) (x : pyfloat * (string * string))
    (l : list (pyfloat * (string * string))) : list (pyfloat * (string * string)) :=
  match l with
  | [] => [x]
  | y :: r =>
      if (if rev then flt_lt (fst y) (fst x) else flt_lt (fst x) (fst y))
      then x :: y :: r
      else y :: insert_by rev x r
  end.

Fixpoint keyed (d : OD.t) : option (list (pyfloat * (string * string))) :=
  match d with
  | [] => Some []
  | (p, s) :: r =>
      match py_float_str p, keyed r with
      | Some q, Some kr => Some ((q, (p, s)) :: kr)
      | _, _ => None
      end
  end.

Definition py_sorted (rev : bool) (d : OD.t) : option OD.t :=
  match keyed d with
  | Some kd => Some (map snd (fold_left (fun acc x => insert_by rev x acc) kd []))
  | None => None
  end.

(* ------------------------------------------------------------------ *)
(** ** OrderBookL2 (handlers/orderbook_l2.py) *)

(** One entry of a frame's [bids]/[asks] array: a list of strings
    ([[price, size, ...]]) or anything else. *)
Inductive level :=
| LList (items : list string)
| LOther.

(** A book frame (an element of a message's [data] array).  [bf_ts] and
    [bf_checksum] are [None] when the key is absent; [bf_seqId] and
    [bf_prevSeqId] are what [dict.get] returns ([None] for absent or null). *)
Record book_frame := mkFrame {
  bf_bids : list level;
  bf_asks : list level;
  bf_ts : option pyval;
  bf_checksum : option pyval;
  bf_seqId : option Z;
  bf_prevSeqId : option Z
}.

Record OrderBookL2 := mkBook {
  inst_id : string;
  max_depth : nat;
  bids : OD.t;
  asks : OD.t;
  last_ts_event_ms : Z;
  last_checksum : Z;
  seq_id : option Z;
  prev_seq_id : option Z;
  is_valid : bool
}.

Definition new_book (inst : string) (depth : nat) : OrderBookL2 :=
  mkBook inst depth [] [] 0 0 None None false.

(** Body of the level loops of [apply_snapshot]. *)
Definition snapshot_step (d : OD.t) (lv : level) : OD.t :=
  match lv with
  | LList (p :: s :: _) =>
      match py_float_str p, py_float_str s with
      | Some _, Some q => if flt_lt (FFin 0) q then OD.set p s d else d
      | _, _ => d
      end
  | _ => d
  end.

Definition apply_snapshot (b : OrderBookL2) (f : book_frame) : bool * OrderBookL2 :=
  let bids1 := fold_left snapshot_step (bf_bids f) [] in
  let asks1 := fold_left snapshot_step (bf_asks f) [] in
  let fail bs as_ ts := (false, mkBook (inst_id b) (max_depth b) bs as_ ts
                           (last_checksum b) (seq_id b) (prev_seq_id b) false) in
  match py_sorted true bids1 with
  | None => fail bids1 asks1 (last_ts_event_ms b)
  | Some bids2 =>
  match py_sorted false asks1 with
  | None => fail bids2 asks1 (last_ts_event_ms b)
  | Some asks2 =>
  match py_int (get_or (bf_ts f) (PInt 0)) with
  | None => fail bids2 asks2 (last_ts_event_ms b)
  | Some ts =>
  match py_int (get_or (bf_checksum f) (PInt 0)) with
  | None => fail bids2 asks2 ts
  | Some cs =>
      (true, mkBook (inst_id b) (max_depth b) bids2 asks2 ts cs
               (bf_seqId f) (bf_prevSeqId f) true)
  end end end end.

(** Body of the level loops of [apply_updates]: the price is not
    validated, only the size; a size that is not [> 0], NaN included,
    pops the level. *)
Definition update_step (d : OD.t) (lv : level) : OD.t :=
  match lv with
  | LList (p :: s :: _) =>
      match py_float_str s with
      | Some q => if flt_lt (FFin 0) q then OD.set p s d else OD.pop p d
      | None => d
      end
  | _ => d
  end.

(** [apply_updates] returns [((success, checksum_ok), book')].  The
    [except Exception] branch returns [(False, False)] and keeps whatever
    in-place mutation happened before the exception. *)
Definition apply_updates (b : OrderBookL2) (f : book_frame)
    : (bool * bool) * OrderBookL2 :=
  match py_int (get_or (bf_checksum f) (PInt 0)) with
  | None => ((false, false), b)
  | Some cs =>
  let checksum_ok :=
    match seq_id b, bf_prevSeqId f with
    | Some cur, Some prev => Z.eqb prev cur
    | _, _ => true
    end in
  let bids1 := fold_left update_step (bf_bids f) (bids b) in
  let asks1 := fold_left update_step (bf_asks f) (asks b) in
  let keep bs as_ := mkBook (inst_id b) (max_depth b) bs as_ (last_ts_event_ms b)
                       (last_checksum b) (seq_id b) (prev_seq_id b) (is_valid b) in
  match py_sorted true bids1 with
  | None => ((false, false), keep bids1 asks1)
  | Some bids2 =>
  match py_sorted false asks1 with
  | None => ((false, false), keep bids2 asks1)
  | Some asks2 =>
  match py_int (get_or (bf_ts f) (PInt 0)) with
  | None => ((false, false), keep bids2 asks2)
  | Some ts =>
      ((true, checksum_ok),
       mkBook (inst_id b) (max_depth b) bids2 asks2 ts cs
         (match bf_seqId f with Some x => Some x | None => seq_id b end)
         (match bf_prevSeqId f with Some x => Some x | None => prev_seq_id b end)
         (is_valid b))
  end end end end.

Record snap_row := mkRow {
  row_snapshot_id : string;
  row_instId : string;
  row_ts_event_ms : Z;
  row_side : Z;
  row_price : pyfloat;
  row_size : pyfloat;
  row_level : nat
}.

(** One of the two [enumerate] loops of [to_snapshot_rows]; [idx] is the
    enumerate index, a level whose price or size does not parse is
    skipped ([continue]) but still consumes its index. *)
Fixpoint side_rows (sid inst : string) (ts side : Z) (idx : nat) (lv : OD.t)
    : list snap_row :=
  match lv with
  | [] => []
  | (p, s) :: r =>
      match py_float_str p, py_float_str s with
      | Some pq, Some sq =>
          mkRow sid inst ts side pq sq (S idx) :: side_rows sid inst ts side (S idx) r
      | _, _ => side_rows sid inst ts side (S idx) r
      end
  end.

(** [limit = max_levels or self.max_depth]: [None] and [0] fall back. *)
Definition to_snapshot_rows (b : OrderBookL2) (snapshot_id : string)
    (ts_event_ms : Z) (max_levels : option nat) : list snap_row :=
  if negb (is_valid b) then []
  else
    let limit := match max_levels with Some (S k) => S k | _ => max_depth b end in
    side_rows snapshot_id (inst_id b) ts_event_ms 1 0 (firstn limit (bids b))
    ++ side_rows snapshot_id (inst_id b) ts_event_ms 2 0 (firstn limit (asks b)).

Definition reset (b : OrderBookL2) : OrderBookL2 :=
  mkBook (inst_id b) (max_depth b) [] [] 0 0 None None false.

(* ------------------------------------------------------------------ *)
(** ** Records buffered by the handlers *)

(** Dict built by [TradesHandler._process_trade]. *)
Record trade_row := mkTrade {
  t_instId : pyval;
  t_ts_event_ms : Z;
  t_tradeId : pyval;
  t_px : pyfloat;
  t_sz : pyfloat;
  t_side : pyval;
  t_ts_ingest_ms : Z
}.

(** Dict built by [OrderBookHandler._process_update]. *)
Record update_row := mkUpdate {
  u_instId : string;
  u_ts_event_ms : Z;
  u_ts_ingest_ms : Z;
  u_bids_delta : list (string * string);
  u_asks_delta : list (string * string);
  u_checksum : Z
}.

(** Python lists are heterogeneous: one element type for every buffer.
    [RDict] stands for the funding-rate, mark-price, ticker and
    open-interest dicts, whose fields no claim inspects. *)
Inductive pyrec :=
| RTrade (t : trade_row)
| RSnapRow (r : snap_row)
| RUpdate (u : update_row)
| RDict (d : list (string * pyval)).

(* ------------------------------------------------------------------ *)
(** ** The client: handlers, their buffers and a heap of Python lists *)

(** Buffer attributes: [TradesHandler.batch], [OrderBookHandler.batch_snapshots],
    [OrderBookHandler.batch_updates], and the [batch] of the funding-rate,
    mark-price, tickers and open-interest handlers. *)
Inductive bkind := KTrades | KSnapshots | KUpdates | KFunding | KMark | KTickers | KOpenInterest.

Definition bkind_eqb (a b : bkind) : bool :=
  match a, b with
  | KTrades, KTrades | KSnapshots, KSnapshots | KUpdates, KUpdates
  | KFunding, KFunding | KMark, KMark | KTickers, KTickers
  | KOpenInterest, KOpenInterest => true
  | _, _ => false
  end.

(** A reference to a Python list object. *)
Definition loc := nat.

Inductive loglevel := LInfo | LWarning | LError.

Inductive ws_frame :=
| WSSubscribe (args : list (string * string))
| WSUnsubscribe (args : list (string * string)).

(** Observable effects: a writer call (method, the list object passed,
    the object the handler's buffer attribute refers to at the moment of
    the call, and the contents passed), a log line, a frame sent on the
    socket, the writer's [close]. *)
Inductive event :=
| EvWrite (meth : string) (arg cur : loc) (payload : list pyrec)
| EvLog (lvl : loglevel) (msg : string)
| EvClose.

Record client := mkClient {
  heap : list (list pyrec);
  batch_of : bkind -> loc;
  storage : bool;                      (** [storage is not None] *)
  books : list (string * OrderBookL2); (** [OrderBookHandler.books] *)
  ob_batch_max : nat;                  (** [OrderBookHandler.batch_max_size] *)
  ob_max_depth : nat;                  (** [OrderBookHandler.max_depth] *)
  sent : list ws_frame;                (** frames sent on the live socket *)
  trace : list event
}.

Definition set_heap (h : list (list pyrec)) (c : client) : client :=
  mkClient h (batch_of c) (storage c) (books c) (ob_batch_max c) (ob_max_depth c) (sent c) (trace c).
Definition set_batch_of (f : bkind -> loc) (c : client) : client :=
  mkClient (heap c) f (storage c) (books c) (ob_batch_max c) (ob_max_depth c) (sent c) (trace c).
Definition set_storage (s : bool) (c : client) : client :=
  mkClient (heap c) (batch_of c) s (books c) (ob_batch_max c) (ob_max_depth c) (sent c) (trace c).
Definition set_books (bs : list (string * OrderBookL2)) (c : client) : client :=
  mkClient (heap c) (batch_of c) (storage c) bs (ob_batch_max c) (ob_max_depth c) (sent c) (trace c).
Definition emit (e : event) (c : client) : client :=
  mkClient (heap c) (batch_of c) (storage c) (books c) (ob_batch_max c) (ob_max_depth c) (sent c)
    (trace c ++ [e]).

Definition hread (h : list (list pyrec)) (l : loc) : list pyrec := nth l h [].

Fixpoint hset (h : list (list pyrec)) (l : loc) (v : list pyrec) : list (list pyrec) :=
  match h, l with
  | [], _ => []
  | _ :: r, O => v :: r
  | x :: r, S l' => x :: hset r l' v
  end.

(** Contents of a buffer attribute. *)
Definition buf (c : client) (k : bkind) : list pyrec := hread (heap c) (batch_of c k).

(** [self.<k> = []]: a fresh list object is allocated and bound. *)
Definition assign_fresh (k : bkind) (c : client) : client :=
  let l := List.length (heap c) in
  set_batch_of (fun k' => if bkind_eqb k k' then l else batch_of c k')
    (set_heap (List.app (heap c) [[]]) c).

(** [self.<k>.append(x)] / [self.<k>.extend(xs)]: in-place mutation. *)
Definition buf_extend (k : bkind) (xs : list pyrec) (c : client) : client :=
  set_heap (hset (heap c) (batch_of c k) (List.app (buf c k) xs)) c.

(** [needle in hay] on strings. *)
Definition contains (needle hay : string) : bool :=
  match String.index 0 needle hay with Some _ => true | None => false end.

(** Outcome of an awaited writer method: returns, or raises with [str(e)]. *)
Inductive wresult := WOk | WErr (msg : string).

Definition writer := string -> list pyrec -> wresult.

(* ------------------------------------------------------------------ *)
(** ** Flushes *)

(** [TradesHandler._flush_batch] (trades.py 51-70).  With
    [storage = None] the attribute access raises AttributeError, which
    the [except Exception] catches. *)
Definition trades_flush_batch (wr : writer) (c : client) : client :=
  let l := batch_of c KTrades in
  let b := buf c KTrades in
  match b with
  | [] => c
  | _ =>
      let '(c1, r) :=
        if storage c then (emit (EvWrite "write_trades" l (batch_of c KTrades) b) c,
                           wr "write_trades" b)
        else (c, WErr "'NoneType' object has no attribute 'write_trades'") in
      match r with
      | WOk => assign_fresh KTrades (emit (EvLog LInfo "Successfully flushed trades to storage") c1)
      | WErr m =>
          if contains "ClickHouse error writing trades: 0" m
          then assign_fresh KTrades
                 (emit (EvLog LInfo "Successfully flushed trades to storage (ClickHouse returned 0)") c1)
          else emit (EvLog LError "Batch sample")
                 (emit (EvLog LError ("Error flushing trades batch: " ++ m)) c1)
      end
  end.

Definition trades_flush (wr : writer) (c : client) : client :=
  match buf c KTrades with [] => c | _ => trades_flush_batch wr c end.

(** [OrderBookHandler._flush_snapshots] / [_flush_updates]
    (orderbook.py 229-263): take the list, rebind the attribute to a
    fresh list, then call the writer on the taken list. *)
Definition ob_flush_buffer (k : bkind) (meth : string) (wr : writer) (c : client) : client :=
  let batch_to_write := batch_of c k in
  let b := buf c k in
  match b with
  | [] => c
  | _ =>
      let c1 := assign_fresh k c in
      if storage c1 then
        let c2 := emit (EvWrite meth batch_to_write (batch_of c1 k) b) c1 in
        match wr meth b with
        | WOk => c2
        | WErr m => emit (EvLog LError ("Error flushing orderbook batch: " ++ m)) c2
        end
      else c1
  end.

Definition flush_snapshots := ob_flush_buffer KSnapshots "write_orderbook_snapshots".
Definition flush_updates := ob_flush_buffer KUpdates "write_orderbook_updates".

(** [OrderBookHandler.flush]. *)
Definition ob_flush (wr : writer) (c : client) : client :=
  flush_updates wr (flush_snapshots wr c).

(** [FundingRateHandler._flush_batch] (funding_rate.py 53-86); the
    mark-price, tickers and open-interest handlers have the same code
    with their own writer method and message. *)
Definition guarded_flush_batch (k : bkind) (meth zero_msg : string)
    (wr : writer) (c : client) : client :=
  let l := batch_of c k in
  let b := buf c k in
  match b with
  | [] => c
  | _ =>
      if storage c then
        let c1 := emit (EvWrite meth l (batch_of c k) b) c in
        match wr meth b with
        | WOk => assign_fresh k (emit (EvLog LInfo "Successfully flushed to storage") c1)
        | WErr m =>
            if contains zero_msg m
            then assign_fresh k (emit (EvLog LInfo "Successfully flushed to storage (ClickHouse returned 0)") c1)
            else emit (EvLog LError "Batch sample") (emit (EvLog LError ("Error flushing batch: " ++ m)) c1)
        end
      else assign_fresh k (emit (EvLog LInfo "No storage available, skipping flush") c)
  end.

Definition guarded_flush (k : bkind) (meth zero_msg : string) (wr : writer) (c : client) : client :=
  match buf c k with [] => c | _ => guarded_flush_batch k meth zero_msg wr c end.

Definition funding_flush := guarded_flush KFunding "write_funding_rates" "ClickHouse error writing funding_rates: 0".
Definition mark_flush := guarded_flush KMark "write_mark_prices" "ClickHouse error writing mark_prices: 0".
Definition tickers_flush := guarded_flush KTickers "write_tickers" "ClickHouse error writing tickers: 0".
Definition open_interest_flush := guarded_flush KOpenInterest "write_open_interest" "ClickHouse error writing open_interest: 0".

(** [OKXWebSocketClient.flush_all_handlers] (client.py 191-210).  No
    exception escapes a handler's [flush] in this model, so the per-handler
    [try/except] never fires. *)
Definition flush_all_handlers (wr : writer) (c : client) : client :=
  open_interest_flush wr (tickers_flush wr (mark_flush wr (funding_flush wr
    (ob_flush wr (trades_flush wr c))))).

(** What the flush task observes at its [await asyncio.sleep(5.0)]:
    the sleep completes, or the task is cancelled. *)
Inductive sched_ev := STick | SCancel.

(** [OKXWebSocketClient.periodic_flush] (client.py 212-227); returns the
    state and whether the task has exited. *)
Fixpoint periodic_flush (wr : writer) (evs : list sched_ev) (c : client) : client * bool :=
  match evs with
  | [] => (c, false)
  | STick :: r => periodic_flush wr r (flush_all_handlers wr c)
  | SCancel :: _ =>
      (emit (EvLog LInfo "Final flush done")
         (flush_all_handlers wr (emit (EvLog LInfo "periodic_flush cancelled, final flush") c)),
       true)
  end.

(** The [finally] block of [main] (run.py 22-54), entered once
    [run_forever] has stopped: cancel and await the flush task, run the
    defensive [flush_all_handlers], close the writer if any. *)
Definition main_shutdown (wr : writer) (c : client) : client :=
  let c1 := fst (periodic_flush wr [SCancel] c) in
  let c2 := flush_all_handlers wr (emit (EvLog LInfo "defensive flush") c1) in
  if storage c2 then emit EvClose c2 else c2.

(** Storage initialisation at the top of [run_forever] (client.py 58-84). *)
Inductive init_result := InitOk | InitErr (msg : string).

Inductive sup_state :=
| SupLoop (c : client)      (** the reconnect loop [while True] is entered *)
| SupExit (code : Z).

Definition run_forever_start (r : init_result) (c : client) : sup_state :=
  match r with
  | InitOk => SupLoop (emit (EvLog LInfo "PostgreSQL storage initialized successfully") (set_storage true c))
  | InitErr m =>
      SupLoop (set_storage false
        (emit (EvLog LWarning ("Failed to initialize PostgreSQL storage: " ++ m ++ ". Working without storage.")) c))
  end.

(* ------------------------------------------------------------------ *)
(** ** Trades parsing (trades.py 16-49) *)

(** A trade object of the [data] array, as a dict. *)
Definition pydict := list (string * pyval).

Fixpoint dict_get (k : string) (d : pydict) : option pyval :=
  match d with
  | [] => None
  | (k', v) :: r => if String.eqb k k' then Some v else dict_get k r
  end.

(** [_process_trade]: the fields of the dict literal are evaluated in
    order; [Ok None] is the [except (ValueError, TypeError)] branch, and
    an OverflowError ([int(inf)], [float(n)] of a huge int) propagates.
    [now_ms] is [int(time.time() * 1000)]. *)
Definition process_trade (now_ms : Z) (trade : pydict) : res (option trade_row) :=
  catch_vt (
    let! ts := py_int_r (get_or (dict_get "ts" trade) (PInt 0)) in
    let! px := py_float_r (get_or (dict_get "px" trade) (PFloat (FFin 0))) in
    let! sz := py_float_r (get_or (dict_get "sz" trade) (PFloat (FFin 0))) in
    Ok (mkTrade (get_or (dict_get "instId" trade) (PStr ""))
                ts
                (get_or (dict_get "tradeId" trade) (PStr ""))
                px sz
                (get_or (dict_get "side" trade) (PStr ""))
                now_ms)).

(** The [for trade in data] loop of [on_trade]; the flag is [true] when
    an exception escapes [_process_trade] and ends the loop. *)
Fixpoint add_trades (now_ms : Z) (data : list pydict) (c : client) : client * bool :=
  match data with
  | [] => (c, false)
  | t :: r =>
      match process_trade now_ms t with
      | Ok (Some row) =>
          add_trades now_ms r (emit (EvLog LInfo "Added trade to batch") (buf_extend KTrades [RTrade row] c))
      | Ok None => add_trades now_ms r (emit (EvLog LError "Error processing trade data") c)
      | Raise _ => (c, true)
      end
  end.

Definition trades_batch_max_size : nat := 10.

(** [TradesHandler.on_trade]; [data] is [msg.get("data", [])].  An
    exception out of the loop skips the size check and is logged by the
    [except Exception]. *)
Definition on_trade (wr : writer) (now_ms : Z) (data : list pydict) (c : client) : client :=
  match data with
  | [] => c
  | _ =>
      let '(c1, raised) := add_trades now_ms data c in
      if raised then emit (EvLog LError "Error processing trade") c1
      else if (trades_batch_max_size <=? List.length (buf c1 KTrades))%nat
      then trades_flush_batch wr c1 else c1
  end.

(* ------------------------------------------------------------------ *)
(** ** OrderBookHandler.on_increment (orderbook.py 92-227) *)

Fixpoint book_get (inst : string) (bs : list (string * OrderBookL2)) : option OrderBookL2 :=
  match bs with
  | [] => None
  | (k, b) :: r => if String.eqb inst k then Some b else book_get inst r
  end.

Fixpoint book_put (inst : string) (b : OrderBookL2) (bs : list (string * OrderBookL2))
    : list (string * OrderBookL2) :=
  match bs with
  | [] => [(inst, b)]
  | (k, b') :: r => if String.eqb inst k then (k, b) :: r else (k, b') :: book_put inst b r
  end.

(** [_parse_levels(levels, max_levels=None)]. *)
Fixpoint parse_levels (lv : list level) : list (string * string) :=
  match lv with
  | [] => []
  | LList (p :: s :: _) :: r =>
      match py_float_str p, py_float_str s with
      | Some _, Some _ => (p, s) :: parse_levels r
      | _, _ => parse_levels r
      end
  | _ :: r => parse_levels r
  end.

(** [_process_update]: [Ok None] is the [except (ValueError, TypeError,
    KeyError)] branch; an OverflowError from [int(inf)] propagates. *)
Definition process_update (f : book_frame) (inst : string) (ts_ingest_ms : Z)
    : res (option update_row) :=
  catch_vt (
    let! ts := py_int_r (get_or (bf_ts f) (PInt 0)) in
    let! cs := py_int_r (get_or (bf_checksum f) (PInt 0)) in
    Ok (mkUpdate inst ts ts_ingest_ms (parse_levels (bf_bids f)) (parse_levels (bf_asks f)) cs)).

(** [_generate_snapshot_for_instrument]; [sid] is the fresh uuid. *)
Definition generate_snapshot_for_instrument (wr : writer) (sid : string) (now_ms : Z)
    (inst : string) (c : client) : client :=
  match book_get inst (books c) with
  | None => c
  | Some b =>
      if negb (is_valid b) then c
      else
        let ts := if Z.eqb (last_ts_event_ms b) 0 then now_ms else last_ts_event_ms b in
        let rows := to_snapshot_rows b sid ts (Some (ob_max_depth c)) in
        match rows with
        | [] => c
        | _ =>
            let c1 := buf_extend KSnapshots (map RSnapRow rows) c in
            if (ob_batch_max c1 <=? List.length (buf c1 KSnapshots))%nat
            then flush_snapshots wr c1 else c1
        end
  end.

(** [OKXWebSocketClient._resubscribe_orderbook] (client.py 182-189), the
    handler's resubscribe callback. *)
Definition resubscribe_orderbook (inst_id : string) (c : client) : client :=
  emit (EvLog LWarning ("Resubscribe requested for " ++ inst_id ++ " (checksum mismatch)")) c.

(** One iteration of the [for update_data in data] loop; the flag is
    [true] when [_process_update] raises. *)
Definition on_increment_one (wr : writer) (sid : string) (now_ms : Z) (inst : string)
    (c : client) (f : book_frame) : client * bool :=
  let c1 :=
    match book_get inst (books c) with
    | Some b =>
        if is_valid b then
          let '((success, checksum_ok), b1) := apply_updates b f in
          let c2 := set_books (book_put inst b1 (books c))
                      (if success then c
                       else emit (EvLog LError ("Failed to apply update to OrderBookL2[" ++ inst ++ "]")) c) in
          if checksum_ok then c2
          else
            let c3 := generate_snapshot_for_instrument wr sid now_ms inst
                        (emit (EvLog LWarning "Checksum/sequence mismatch") c2) in
            let c4 := match book_get inst (books c3) with
                      | Some b3 => set_books (book_put inst (reset b3) (books c3)) c3
                      | None => c3
                      end in
            resubscribe_orderbook inst c4
        else c
    | None => c
    end in
  match process_update f inst now_ms with
  | Ok (Some u) => (buf_extend KUpdates [RUpdate u] c1, false)
  | Ok None => (emit (EvLog LError "Error processing update") c1, false)
  | Raise _ => (c1, true)
  end.

(** The [for update_data in data] loop, left at the first exception. *)
Fixpoint on_increment_loop (wr : writer) (sid : string) (now_ms : Z) (inst : string)
    (data : list book_frame) (c : client) : client * bool :=
  match data with
  | [] => (c, false)
  | f :: r =>
      let '(c1, raised) := on_increment_one wr sid now_ms inst c f in
      if raised then (c1, true) else on_increment_loop wr sid now_ms inst r c1
  end.

(** [OrderBookHandler.on_increment]; [now_ms] is [time.time_ns() //
    1_000_000] and [sid] the uuid a snapshot generated in the loop gets. *)
Definition on_increment (wr : writer) (sid : string) (now_ms : Z) (inst : string)
    (data : list book_frame) (c : client) : client :=
  match data with
  | [] => emit (EvLog LWarning ("No data in update message for " ++ inst)) c
  | _ =>
      let c0 := match book_get inst (books c) with
                | Some _ => c
                | None => set_books (book_put inst (new_book inst (ob_max_depth c)) (books c))
                            (emit (EvLog LWarning "Received update but no book exists") c)
                end in
      let '(c1, raised) := on_increment_loop wr sid now_ms inst data c0 in
      if raised then emit (EvLog LError "Error processing orderbook update") c1
      else if (ob_batch_max c1 <=? List.length (buf c1 KUpdates))%nat
      then flush_updates wr c1 else c1
  end.

(* ------------------------------------------------------------------ *)
(** ** Reconnect loop of run_forever (client.py 21-23, 95-136) *)

(** What happens inside one [_run_once] as seen by the loop: a text
    frame is read and dispatched, the call raises (the socket drops), or
    the read loop ends and [_run_once] returns.  [CError] carries the
    value of [random.random()] (a float in [0, 1)) used by
    [random.uniform]. *)
Inductive conn_ev := CFrame | CError (rnd : Q) | CClean.

Record session := mkSession {
  attempt : nat;            (** [self._attempt] *)
  delays : list pyfloat;    (** the sleeps performed, in order *)
  crashed : bool            (** an exception left [run_forever] *)
}.

(** [full_jitter_delay(base, cap, attempt)]: [base * (2 ** attempt)]
    converts the int to a float first, which raises OverflowError from
    2^1024 on; [random.uniform(0, exp)] is [0 + (exp - 0) * random()]. *)
Definition full_jitter_delay (base cap : pyfloat) (att : nat) (rnd : Q) : res pyfloat :=
  let! p := int_to_float (2 ^ Z.of_nat att) in
  let exp := py_min cap (fmul base p) in
  Ok (fadd (FFin 0) (fmul (fsub exp (FFin 0)) (FFin rnd))).

(** One turn of [while True]; the delay is computed inside the [except]
    block, so an exception there leaves [run_forever]. *)
Definition session_step (base cap : pyfloat) (s : session) (e : conn_ev) : session :=
  if crashed s then s
  else
    match e with
    | CFrame => s
    | CClean => mkSession 0 (delays s) false
    | CError rnd =>
        let a := S (attempt s) in
        match full_jitter_delay base cap a rnd with
        | Ok d => mkSession a (List.app (delays s) [d]) false
        | Raise _ => mkSession a (delays s) true
        end
    end.

Definition run_session (base cap : pyfloat) (evs : list conn_ev) (s : session) : session :=
  fold_left (session_step base cap) evs s.

(* ------------------------------------------------------------------ *)
(** ** Reading of the spec's words used in the statements *)

(** The effect the spec gives to one delta level on the size stored at
    price [k]: upsert for size > 0, erase otherwise (a NaN size is not
    > 0); entries that are not a [[price, size, ...]] list or whose size
    [float()] rejects are skipped. *)
Definition level_effect_one (k : string) (lv : level) (cur : option string) : option string :=
  match lv with
  | LList (p :: s :: _) =>
      match py_float_str s with
      | Some q => if String.eqb k p then (if flt_lt (FFin 0) q then Some s else None) else cur
      | None => cur
      end
  | _ => cur
  end.

Fixpoint level_effect (k : string) (lvs : list level) (cur : option string) : option string :=
  match lvs with
  | [] => cur
  | lv :: r => level_effect k r (level_effect_one k lv cur)
  end.

(** A price string that [float()] accepts. *)
Definition price_ok (p : string) : Prop := py_float_str p <> None.

(** Every [[price, size, ...]] level of a frame carries a numeric price. *)
Definition level_price_parses (lv : level) : Prop :=
  match lv with
  | LList (p :: _ :: _) => price_ok p
  | _ => True
  end.

(** A price that [float()] accepts and that is not NaN. *)
Definition price_num (p : string) : bool :=
  match py_float_str p with Some f => negb (is_nan f) | None => false end.

(** The price of a [[price, size, ...]] level parses to a number other
    than NaN. *)
Definition level_price_num (lv : level) : Prop :=
  match lv with
  | LList (p :: _ :: _) => price_num p = true
  | _ => True
  end.

(** A [[price, size, ...]] level whose price is not NaN (an unparsable
    price is allowed: such a level is dropped). *)
Definition level_not_nan (lv : level) : Prop :=
  match lv with
  | LList (p :: _ :: _) => py_float_str p <> Some FNaN
  | _ => True
  end.

(* ------------------------------------------------------------------ *)
(** ** Concrete inputs (the spec's end-to-end scenarios) *)

Definition btc := "BTC-USDT-SWAP".

(** Scenario 1's snapshot frame, with [seqId = 7]. *)
Definition snap_frame_btc : book_frame :=
  mkFrame [LList ["100"; "1"]; LList ["99"; "2"]] [LList ["101"; "1"]; LList ["102"; "2"]]
    (Some (PStr "1000")) None (Some 7%Z) None.

Definition book_btc : OrderBookL2 := snd (apply_snapshot (new_book btc 50) snap_frame_btc).

(** Scenario 1's delta, with [prevSeqId = 8] against the book's [seqId = 7]. *)
Definition gap_frame : book_frame :=
  mkFrame [LList ["100"; "0"]; LList ["98"; "3"]] [LList ["101"; "5"]]
    (Some (PStr "1001")) (Some (PInt 42)) (Some 9%Z) (Some 8%Z).

(** The same delta with a checksum that [int()] rejects. *)
Definition gap_frame_bad_checksum : book_frame :=
  mkFrame [LList ["100"; "0"]; LList ["98"; "3"]] [LList ["101"; "5"]]
    (Some (PStr "1001")) (Some (PStr "x")) (Some 9%Z) (Some 8%Z).

(** A delta whose prices are continuous with [book_btc] ([prevSeqId = 7])
    but whose second bid carries a price that [float()] rejects. *)
Definition bad_price_frame : book_frame :=
  mkFrame [LList ["100.5"; "1"]; LList ["abc"; "1"]] []
    (Some (PStr "1001")) (Some (PInt 42)) (Some 8%Z) (Some 7%Z).

(** The snapshot rows held in a buffer. *)
Definition snap_rows_of (l : list pyrec) : list snap_row :=
  flat_map (fun r => match r with RSnapRow s => [s] | _ => [] end) l.

Definition bid_prices (rows : list snap_row) : list pyfloat :=
  map row_price (filter (fun r => Z.eqb (row_side r) 1) rows).

(** Strictly decreasing, as the spec's "price-descending" bid rows. *)
Fixpoint qdesc (l : list pyfloat) : bool :=
  match l with
  | x :: ((y :: _) as r) => flt_lt y x && qdesc r
  | _ => true
  end.

(** Trade objects: one without [px], one whose [px] is not a number. *)
Definition trade_px_absent : pydict :=
  [("instId", PStr btc); ("tradeId", PStr "1000"); ("ts", PStr "1704067200000");
   ("sz", PStr "0.5"); ("side", PStr "buy")].

Definition trade_px_bad : pydict :=
  [("instId", PStr btc); ("tradeId", PStr "1001"); ("ts", PStr "1704067200000");
   ("px", PStr "abc"); ("sz", PStr "0.5"); ("side", PStr "buy")].

(** The rows [_process_trade] returns for a [data] array. *)
Definition parsed_trades (now_ms : Z) (data : list pydict) : list pyrec :=
  flat_map (fun t => match process_trade now_ms t with Ok (Some r) => [RTrade r] | _ => [] end) data.

(** No record of [data] makes [_process_trade] raise past its [except]. *)
Definition trades_no_raise (now_ms : Z) (data : list pydict) : Prop :=
  Forall (fun t => raises (process_trade now_ms t) = false) data.

(** Predicates on the events a step adds. *)
Definition is_write (e : event) : bool :=
  match e with EvWrite _ _ _ _ => true | _ => false end.

Definition is_error_log (e : event) : bool :=
  match e with EvLog LError _ => true | _ => false end.

(** No writer call and no error log. *)
Definition quiet (evs : list event) : Prop :=
  forall e, In e evs -> is_write e = false /\ is_error_log e = false.

(** Every writer call received a list object other than the one the
    handler's attribute referred to at the time of the call. *)
Definition write_args_differ (evs : list event) : Prop :=
  forall meth a cur p, In (EvWrite meth a cur p) evs -> a <> cur.

(** Every writer call received the very list the attribute referred to. *)
Definition write_args_live (evs : list event) : Prop :=
  forall meth a cur p, In (EvWrite meth a cur p) evs -> a = cur.

(** Every buffer attribute refers to an allocated list object. *)
Definition allocated (c : client) : Prop :=
  forall k, (batch_of c k < List.length (heap c))%nat.

(** A client after [__init__] with its seven empty buffers, a writer, the
    book of scenario 1 and the socket's initial subscribe frame. *)
Definition kind_loc (k : bkind) : loc :=
  match k with
  | KTrades => 0 | KSnapshots => 1 | KUpdates => 2 | KFunding => 3
  | KMark => 4 | KTickers => 5 | KOpenInterest => 6
  end%nat.

Definition client0 : client :=
  mkClient [[]; []; []; []; []; []; []] kind_loc true [(btc, book_btc)] 50 50
    [WSSubscribe [("books", btc)]] [].

Definition sample_trade : trade_row :=
  mkTrade (PStr btc) 1704067200000 (PStr "999") (FFin 50000) (FFin 1) (PStr "buy") 1704067200100.

Definition sample_funding : pyrec :=
  RDict [("instId", PStr btc); ("fundingRate", PFloat (FFin (1 # 10000)))].

Definition client_with_trade : client := buf_extend KTrades [RTrade sample_trade] client0.

Definition sample_snap_row : pyrec := RSnapRow (mkRow "snap-1" btc 1000 1 (FFin 100) (FFin 1) 1).

Definition client_with_snapshot : client :=
  buf_extend KSnapshots [sample_snap_row] client_with_trade.

(** No writer configured (failed storage init), one funding record buffered. *)
Definition client_nostore_funding : client :=
  set_storage false (buf_extend KFunding [sample_funding] client0).

Definition writer_ok : writer := fun _ _ => WOk.
Definition writer_timeout : writer := fun _ _ => WErr "connection timeout".

(** The events a step adds at the end of the trace. *)
Definition extends (c c' : client) : Prop := exists evs, trace c' = List.app (trace c) evs.

(** [r] is in the list passed to some writer call made between [c] and [c']. *)
Definition handed (r : pyrec) (c c' : client) : Prop :=
  exists evs, trace c' = List.app (trace c) evs /\
    exists meth a cur p, In (EvWrite meth a cur p) evs /\ In r p.

(** A flush function drains the buffers [ks]: it only appends to the
    trace, keeps [storage], leaves the other buffers alone, and with a
    writer configured hands every record of [ks] to the writer. *)
Record drains (F : client -> client) (ks : list bkind) : Prop := {
  dr_ext : forall c, extends c (F c);
  dr_storage : forall c, storage (F c) = storage c;
  dr_other : forall c k, ~ In k ks -> buf (F c) k = buf c k;
  dr_hand : forall c k r, In k ks -> storage c = true -> In r (buf c k) -> handed r c (F c)
}.

(** With no writer configured, a flush function makes no writer call,
    keeps [storage = None], empties the buffers [ks] and keeps every empty
    buffer empty. *)
Record drops (F : client -> client) (ks : list bkind) : Prop := {
  dp_storage : forall c, storage c = false -> storage (F c) = false;
  dp_nowrite : forall c, storage c = false ->
    exists evs, trace (F c) = List.app (trace c) evs /\ Forall (fun e => is_write e = false) evs;
  dp_empty : forall c k, storage c = false -> In k ks -> buf (F c) k = [];
  dp_keep : forall c k, storage c = false -> buf c k = [] -> buf (F c) k = []
}.

Definition all_kinds : list bkind :=
  [KTrades; KSnapshots; KUpdates; KFunding; KMark; KTickers; KOpenInterest].

(** ** Order of the book's sides *)

(** [a] may precede [b] in a side sorted with [reverse=rev]. *)
Definition qle_dir (rev : bool) (a b : pyfloat) : bool :=
  negb (if rev then flt_lt a b else flt_lt b a).

Fixpoint qsorted (rev : bool) (l : list pyfloat) : bool :=
  match l with
  | x :: ((y :: _) as r) => qle_dir rev x y && qsorted rev r
  | _ => true
  end.

(** Every price of the side parses to a number other than NaN and the
    prices are in the sort order. *)
Definition side_sorted (rev : bool) (d : OD.t) : bool :=
  match keyed d with
  | Some kd => forallb (fun x => negb (is_nan (fst x))) kd && qsorted rev (map fst kd)
  | None => false
  end.

(** The stored size parses to a positive number. *)
Definition size_pos (kv : string * string) : bool :=
  match py_float_str (snd kv) with Some q => flt_lt (FFin 0) q | None => false end.

(** What a valid book keeps: sides sorted by price, positive sizes, no
    duplicate price keys. *)
Definition book_ok (b : OrderBookL2) : Prop :=
  is_valid b = true ->
  side_sorted true (bids b) = true /\ side_sorted false (asks b) = true /\
  forallb size_pos (bids b) = true /\ forallb size_pos (asks b) = true /\
  NoDup (OD.keys (bids b)) /\ NoDup (OD.keys (asks b)).

(** A keyed item whose key is the [float()] of its price. *)
Definition key_ok (x : pyfloat * (string * string)) : Prop := py_float_str (fst (snd x)) = Some (fst x).

(** The rows of one side ([1] bid, [2] ask). *)
Definition rows_of_side (side : Z) (rows : list snap_row) : list snap_row :=
  filter (fun r => Z.eqb (row_side r) side) rows.

Definition ask_prices (rows : list snap_row) : list pyfloat := map row_price (rows_of_side 2 rows).

(* ------------------------------------------------------------------ *)
(** ** The dict handlers: funding rate, mark price, tickers, open interest *)

(** How a field of a [_process_*] dict literal is computed:
    [d.get(k, "")], [float(d.get(k, 0.0))] or [int(d.get(k, 0))]. *)
Inductive conv := CStr | CFloat | CInt.

Definition convert (cv : conv) (v : option pyval) : res pyval :=
  match cv with
  | CStr => Ok (get_or v (PStr ""))
  | CFloat => res_map PFloat (py_float_r (get_or v (PFloat (FFin 0))))
  | CInt => res_map PInt (py_int_r (get_or v (PInt 0)))
  end.

(** The fields of the dict literal, in source order: output key, key
    read from the message, conversion.  The first conversion that raises
    aborts the literal. *)
Fixpoint build_fields (fs : list (string * string * conv)) (d : pydict) : res pydict :=
  match fs with
  | [] => Ok []
  | (out, k, cv) :: r =>
      let! v := convert cv (dict_get k d) in
      let! t := build_fields r d in
      Ok ((out, v) :: t)
  end.

(** [_process_funding_rate] and its siblings: the literal ends with
    ["ts_ingest_ms": int(time.time() * 1000)]; [Ok None] is the
    [except (ValueError, TypeError)] branch, an OverflowError
    propagates. *)
Definition process_fields (fs : list (string * string * conv)) (now_ms : Z) (d : pydict)
    : res (option pydict) :=
  catch_vt (res_map (fun t => List.app t [("ts_ingest_ms", PInt now_ms)]) (build_fields fs d)).

(** funding_rate.py 39-48. *)
Definition funding_fields : list (string * string * conv) :=
  [("instId", "instId", CStr); ("fundingRate", "fundingRate", CFloat);
   ("fundingTime", "fundingTime", CInt); ("nextFundingTime", "nextFundingTime", CInt);
   ("ts_event_ms", "ts", CInt)].

(** mark_price.py 39-46. *)
Definition mark_fields : list (string * string * conv) :=
  [("instId", "instId", CStr); ("markPx", "markPx", CFloat); ("idxPx", "idxPx", CFloat);
   ("idxTs", "idxTs", CInt); ("ts_event_ms", "ts", CInt)].

(** tickers.py 39-54. *)
Definition ticker_fields : list (string * string * conv) :=
  [("instId", "instId", CStr); ("last", "last", CFloat); ("lastSz", "lastSz", CFloat);
   ("bidPx", "bidPx", CFloat); ("bidSz", "bidSz", CFloat); ("askPx", "askPx", CFloat);
   ("askSz", "askSz", CFloat); ("open24h", "open24h", CFloat); ("high24h", "high24h", CFloat);
   ("low24h", "low24h", CFloat); ("vol24h", "vol24h", CFloat); ("volCcy24h", "volCcy24h", CFloat);
   ("ts_event_ms", "ts", CInt)].

(** open_interest.py 39-45. *)
Definition oi_fields : list (string * string * conv) :=
  [("instId", "instId", CStr); ("oi", "oi", CFloat); ("oiCcy", "oiCcy", CFloat);
   ("ts_event_ms", "ts", CInt)].

Definition process_funding_rate := process_fields funding_fields.
Definition process_mark_price := process_fields mark_fields.
Definition process_ticker := process_fields ticker_fields.
Definition process_open_interest := process_fields oi_fields.

(** The [for ... in data] loop of [on_funding_rate] and its siblings; the
    built dict is never empty, so the walrus test holds whenever the
    conversion succeeded.  The flag is [true] when an exception escapes
    [_process_*] and ends the loop. *)
Fixpoint add_records (k : bkind) (fs : list (string * string * conv)) (what : string)
    (now_ms : Z) (data : list pydict) (c : client) : client * bool :=
  match data with
  | [] => (c, false)
  | d :: r =>
      match process_fields fs now_ms d with
      | Ok (Some row) =>
          add_records k fs what now_ms r
            (emit (EvLog LInfo ("Added " ++ what ++ " to batch")) (buf_extend k [RDict row] c))
      | Ok None =>
          add_records k fs what now_ms r
            (emit (EvLog LError ("Error processing " ++ what ++ " data")) c)
      | Raise _ => (c, true)
      end
  end.

(** [self.batch_max_size = 50] of the four handlers. *)
Definition dict_batch_max_size : nat := 50.

(** [on_funding_rate] / [on_mark_price] / [on_ticker] / [on_open_interest]. *)
Definition on_records (k : bkind) (fs : list (string * string * conv)) (what meth zero_msg : string)
    (wr : writer) (now_ms : Z) (data : list pydict) (c : client) : client :=
  match data with
  | [] => c
  | _ =>
      let '(c1, raised) := add_records k fs what now_ms data c in
      if raised then emit (EvLog LError ("Error processing " ++ what)) c1
      else if (dict_batch_max_size <=? List.length (buf c1 k))%nat
      then guarded_flush_batch k meth zero_msg wr c1 else c1
  end.

Definition on_funding_rate := on_records KFunding funding_fields "funding rate"
  "write_funding_rates" "ClickHouse error writing funding_rates: 0".
Definition on_mark_price := on_records KMark mark_fields "mark price"
  "write_mark_prices" "ClickHouse error writing mark_prices: 0".
Definition on_ticker := on_records KTickers ticker_fields "ticker"
  "write_tickers" "ClickHouse error writing tickers: 0".
Definition on_open_interest := on_records KOpenInterest oi_fields "open interest"
  "write_open_interest" "ClickHouse error writing open_interest: 0".

(* ------------------------------------------------------------------ *)
(** ** OrderBookHandler.on_snapshot, on_reconnect, periodic_snapshots *)

(** One iteration of the [for snapshot_data in data] loop of
    [on_snapshot] (orderbook.py 64-81); [sid] is the uuid drawn for the
    frame.  The boolean is [true] when an exception escapes to the
    [except Exception] of [on_snapshot]; the in-place mutation of the book
    done before it is kept. *)
Definition on_snapshot_one (now_ms : Z) (inst : string) (c : client) (fs : book_frame * string)
    : client * bool :=
  let '(f, sid) := fs in
  match book_get inst (books c) with
  | None => (c, false)
  | Some b =>
      let '(success, b1) := apply_snapshot b f in
      let c1 := set_books (book_put inst b1 (books c)) c in
      if success then
        match py_int (get_or (bf_ts f) (PInt now_ms)) with
        | None => (c1, true)
        | Some ts =>
            match to_snapshot_rows b1 sid ts (Some (ob_max_depth c1)) with
            | [] => (c1, false)
            | rows => (buf_extend KSnapshots (map RSnapRow rows) c1, false)
            end
        end
      else (emit (EvLog LWarning ("Failed to apply snapshot to OrderBookL2: " ++ inst)) c1, false)
  end.

Fixpoint on_snapshot_loop (now_ms : Z) (inst : string) (data : list (book_frame * string))
    (c : client) : client * bool :=
  match data with
  | [] => (c, false)
  | x :: r =>
      let '(c1, raised) := on_snapshot_one now_ms inst c x in
      if raised then (c1, true) else on_snapshot_loop now_ms inst r c1
  end.

(** [OrderBookHandler.on_snapshot] (orderbook.py 42-90); [now_ms] is
    [ts_ingest_ms]. *)
Definition on_snapshot (wr : writer) (now_ms : Z) (inst : string)
    (data : list (book_frame * string)) (c : client) : client :=
  match data with
  | [] => emit (EvLog LWarning ("No data in snapshot message for " ++ inst)) c
  | _ =>
      let c0 := match book_get inst (books c) with
                | Some _ => c
                | None => emit (EvLog LInfo ("Created OrderBookL2 for " ++ inst))
                            (set_books (book_put inst (new_book inst (ob_max_depth c)) (books c)) c)
                end in
      let '(c1, raised) := on_snapshot_loop now_ms inst data c0 in
      if raised then emit (EvLog LError "Error processing orderbook snapshot") c1
      else if (ob_batch_max c1 <=? List.length (buf c1 KSnapshots))%nat
      then flush_snapshots wr c1 else c1
  end.

(** [OrderBookHandler.on_reconnect] (orderbook.py 369-377); [sid_of inst]
    is the uuid drawn for [inst]. *)
Definition on_reconnect (wr : writer) (sid_of : string -> string) (now_ms : Z) (c : client)
    : client :=
  let c0 := emit (EvLog LInfo "on_reconnect: generating snapshots") c in
  flush_snapshots wr
    (fold_left (fun c' inst => generate_snapshot_for_instrument wr (sid_of inst) now_ms inst c')
       (map fst (books c0)) c0).

(** [book.last_ts_event_ms or ts_ingest_ms]. *)
Definition event_ts (b : OrderBookL2) (now_ms : Z) : Z :=
  if Z.eqb (last_ts_event_ms b) 0 then now_ms else last_ts_event_ms b.

(** Body of the [for inst_id, book in self.books.items()] loop of
    [periodic_snapshots]; the counter is [generated_count].  Debug log
    lines are not recorded. *)
Definition snapshot_tick_step (sid_of : string -> string) (now_ms : Z) (depth : nat)
    (acc : client * nat) (ib : string * OrderBookL2) : client * nat :=
  let '(c, g) := acc in
  let '(inst, b) := ib in
  if negb (is_valid b) then (c, g)
  else
    match to_snapshot_rows b (sid_of inst) (event_ts b now_ms) (Some depth) with
    | [] => (c, g)
    | rows => (buf_extend KSnapshots (map RSnapRow rows) c, S g)
    end.

(** One iteration of the [while True] loop of [periodic_snapshots]
    (orderbook.py 283-321), after the sleep. *)
Definition periodic_snapshots_tick (wr : writer) (sid_of : string -> string) (now_ms : Z)
    (c : client) : client :=
  match books c with
  | [] => c
  | bs =>
      let '(c1, generated) := fold_left (snapshot_tick_step sid_of now_ms (ob_max_depth c)) bs (c, 0%nat) in
      if (ob_batch_max c1 <=? List.length (buf c1 KSnapshots))%nat then flush_snapshots wr c1
      else if (0 <? List.length (buf c1 KSnapshots))%nat && (0 <? generated)%nat
      then flush_snapshots wr c1 else c1
  end.

(** [OKXWebSocketClient._sub_payload] (client.py 50-56): the frame sent
    on connect, one argument per channel and instrument, channel-major. *)
Definition sub_payload (channels instruments : list string) : ws_frame :=
  WSSubscribe (flat_map (fun ch => map (fun inst => (ch, inst)) instruments) channels).

Definition is_close (e : event) : bool := match e with EvClose => true | _ => false end.

(** ** Predicates and fixtures of the further properties *)

(** A step that only appends events, none of them a writer close. *)
Definition close_free (F : client -> client) : Prop :=
  forall c, exists evs, trace (F c) = List.app (trace c) evs /\ filter is_close evs = [].

(** The dicts a [for ... in data] loop of a dict handler appends. *)
Definition parsed_records (fs : list (string * string * conv)) (now_ms : Z) (data : list pydict)
    : list pyrec :=
  flat_map (fun d => match process_fields fs now_ms d with Ok (Some r) => [RDict r] | _ => [] end) data.

(** No record of [data] makes [_process_*] raise past its [except]. *)
Definition records_no_raise (fs : list (string * string * conv)) (now_ms : Z) (data : list pydict)
    : Prop :=
  Forall (fun d => raises (process_fields fs now_ms d) = false) data.

(** The update rows [_process_update] returns for the frames. *)
Definition parsed_updates (inst : string) (now_ms : Z) (data : list book_frame) : list pyrec :=
  flat_map (fun f => match process_update f inst now_ms with Ok (Some u) => [RUpdate u] | _ => [] end) data.

(** No frame makes [_process_update] raise past its [except]. *)
Definition updates_no_raise (inst : string) (now_ms : Z) (data : list book_frame) : Prop :=
  Forall (fun f => raises (process_update f inst now_ms) = false) data.

(** The default of a field absent from the message object. *)
Definition conv_default (cv : conv) : pyval :=
  match cv with CStr => PStr "" | CFloat => PFloat (FFin 0) | CInt => PInt 0 end.

(** A funding-rate message with one record, a trades message with one
    trade, and an instrument with no book in [client0]. *)
Definition funding_msg : list pydict :=
  [[("instId", PStr btc); ("fundingRate", PStr "0.0001"); ("fundingTime", PStr "1704067200000")]].

Definition trade_msg : list pydict :=
  [[("instId", PStr btc); ("px", PStr "50000"); ("sz", PStr "1"); ("ts", PStr "1704067200000")]].

Definition eth := "ETH-USDT-SWAP".

(* ================================================================== *)
(** * Proofs *)

Open Scope list_scope.

(** ** Association-list lemmas *)

Lemma OD_lookup_set k p s d :
  OD.lookup k (OD.set p s d) = if String.eqb k p then Some s else OD.lookup k d.
Proof.
  induction d as [|[k' v'] r IH]; simpl.
  - destruct (String.eqb k p); reflexivity.
  - destruct (String.eqb_spec p k') as [->|Hne]; simpl.
    + destruct (String.eqb k k'); reflexivity.
    + rewrite IH.
      destruct (String.eqb_spec k k'); destruct (String.eqb_spec k p);
        congruence.
Qed.

Lemma OD_lookup_pop k p d :
  OD.lookup k (OD.pop p d) = if String.eqb k p then None else OD.lookup k d.
Proof.
  unfold OD.pop. induction d as [|[k' v'] r IH]; simpl.
  - destruct (String.eqb k p); reflexivity.
  - destruct (String.eqb_spec k' p) as [->|Hne]; simpl.
    + rewrite IH. destruct (String.eqb_spec k p); reflexivity.
    + rewrite IH. destruct (String.eqb_spec k k'); destruct (String.eqb_spec k p);
        congruence.
Qed.

Lemma update_fold_lookup k lvs d :
  OD.lookup k (fold_left update_step lvs d) = level_effect k lvs (OD.lookup k d).
Proof.
  revert d; induction lvs as [|lv r IH]; intro d; simpl; [reflexivity|].
  rewrite IH. f_equal.
  destruct lv as [[|p [|s rest]]|]; simpl; try reflexivity.
  destruct (py_float_str s) as [q|]; [|reflexivity].
  destruct (flt_lt (FFin 0) q); [rewrite OD_lookup_set | rewrite OD_lookup_pop];
    destruct (String.eqb k p); reflexivity.
Qed.

Lemma OD_keys_set k p s d : In k (OD.keys (OD.set p s d)) -> k = p \/ In k (OD.keys d).
Proof.
  induction d as [|[k' v'] r IH]; simpl.
  - intros [H|[]]; auto.
  - destruct (String.eqb_spec p k') as [->|]; simpl.
    + intros [H|H]; auto.
    + intros [H|H]; auto. destruct (IH H); auto.
Qed.

Lemma OD_keys_pop k p d : In k (OD.keys (OD.pop p d)) -> In k (OD.keys d).
Proof.
  unfold OD.pop. induction d as [|[k' v'] r IH]; simpl; [auto|].
  destruct (negb (String.eqb k' p)); simpl; intuition.
Qed.

Lemma NoDup_set p s d : NoDup (OD.keys d) -> NoDup (OD.keys (OD.set p s d)).
Proof.
  induction d as [|[k' v'] r IH]; simpl; intro ND.
  - constructor; [intros []|constructor].
  - destruct (String.eqb_spec p k') as [->|Hne]; simpl; [exact ND|].
    inversion ND as [|? ? Hnin ND']; subst. constructor; auto.
    intro Hin. destruct (OD_keys_set _ _ _ _ Hin); [congruence|contradiction].
Qed.

Lemma NoDup_pop p d : NoDup (OD.keys d) -> NoDup (OD.keys (OD.pop p d)).
Proof.
  induction d as [|[k' v'] r IH]; simpl; intro ND; [constructor|].
  inversion ND as [|? ? Hnin ND']; subst.
  unfold OD.pop in *; simpl. destruct (negb (String.eqb k' p)); simpl; auto.
  constructor; auto. intro Hin. apply Hnin. exact (OD_keys_pop _ _ _ Hin).
Qed.

Lemma NoDup_update_fold lvs d :
  NoDup (OD.keys d) -> NoDup (OD.keys (fold_left update_step lvs d)).
Proof.
  revert d; induction lvs as [|lv r IH]; intros d ND; simpl; [exact ND|].
  apply IH. destruct lv as [[|p [|s rest]]|]; simpl; auto.
  destruct (py_float_str s) as [q|]; auto.
  destruct (flt_lt (FFin 0) q); [apply NoDup_set | apply NoDup_pop]; exact ND.
Qed.

Lemma price_ok_update_fold lvs d :
  Forall price_ok (OD.keys d) -> Forall level_price_parses lvs ->
  Forall price_ok (OD.keys (fold_left update_step lvs d)).
Proof.
  revert d; induction lvs as [|lv r IH]; intros d Hd Hl; simpl; [exact Hd|].
  inversion Hl as [|? ? Hlv Hr]; subst. apply IH; auto.
  destruct lv as [[|p [|s rest]]|]; simpl; auto.
  destruct (py_float_str s) as [q|]; auto.
  rewrite Forall_forall in *. destruct (flt_lt (FFin 0) q); intros x Hx.
  - destruct (OD_keys_set _ _ _ _ Hx) as [->|]; auto.
  - apply Hd. exact (OD_keys_pop _ _ _ Hx).
Qed.

(** ** Python's [sorted] permutes the items *)

Lemma insert_by_perm rev x l : Permutation (insert_by rev x l) (x :: l).
Proof.
  induction l as [|y r IH]; simpl; [reflexivity|].
  destruct (if rev then _ else _); [reflexivity|].
  eapply perm_trans; [apply perm_skip; exact IH|apply perm_swap].
Qed.

Lemma fold_insert_perm rev kd acc :
  Permutation (fold_left (fun acc x => insert_by rev x acc) kd acc) (kd ++ acc).
Proof.
  revert acc; induction kd as [|x r IH]; intro acc; simpl; [reflexivity|].
  eapply perm_trans; [apply IH|].
  eapply perm_trans; [apply Permutation_app_head, insert_by_perm|].
  apply Permutation_sym, Permutation_middle.
Qed.

Lemma keyed_snd d kd : keyed d = Some kd -> map snd kd = d.
Proof.
  revert kd; induction d as [|[p s] r IH]; intros kd H; simpl in H.
  - injection H as <-. reflexivity.
  - destruct (py_float_str p), (keyed r) as [kr|] eqn:E; try discriminate.
    injection H as <-. simpl. rewrite (IH kr eq_refl). reflexivity.
Qed.

Lemma py_sorted_perm rev d d' : py_sorted rev d = Some d' -> Permutation d d'.
Proof.
  unfold py_sorted. destruct (keyed d) as [kd|] eqn:E; intro H; [|discriminate].
  injection H as <-. rewrite <- (keyed_snd _ _ E) at 1.
  apply Permutation_map, Permutation_sym.
  eapply perm_trans; [apply fold_insert_perm|]. rewrite app_nil_r. reflexivity.
Qed.

Lemma py_sorted_some rev d : Forall price_ok (OD.keys d) -> exists d', py_sorted rev d = Some d'.
Proof.
  intro H. unfold py_sorted.
  assert (exists kd, keyed d = Some kd) as [kd ->]; [|eauto].
  induction d as [|[p s] r IH]; simpl in *; [eauto|].
  inversion H as [|? ? Hp Hr]; subst. unfold price_ok in Hp.
  destruct (py_float_str p) as [q|]; [|contradiction].
  destruct (IH Hr) as [kr ->]. eauto.
Qed.

Lemma OD_lookup_In k v d : OD.lookup k d = Some v -> In (k, v) d.
Proof.
  induction d as [|[k' v'] r IH]; simpl; [discriminate|].
  destruct (String.eqb_spec k k') as [->|]; intro H; [injection H as ->; auto|auto].
Qed.

Lemma OD_In_lookup k v d : NoDup (OD.keys d) -> In (k, v) d -> OD.lookup k d = Some v.
Proof.
  induction d as [|[k' v'] r IH]; simpl; [intros _ []|].
  intros ND [H|H]; inversion ND as [|? ? Hnin ND']; subst.
  - injection H as -> ->. rewrite String.eqb_refl. reflexivity.
  - destruct (String.eqb_spec k k') as [->|]; [|auto].
    exfalso. apply Hnin. exact (in_map fst _ _ H).
Qed.

Lemma OD_lookup_perm k d d' :
  NoDup (OD.keys d) -> Permutation d d' -> OD.lookup k d = OD.lookup k d'.
Proof.
  intros ND P.
  assert (ND' : NoDup (OD.keys d')).
  { eapply Permutation_NoDup; [apply Permutation_map; exact P|exact ND]. }
  destruct (OD.lookup k d) as [v|] eqn:E.
  - symmetry. apply OD_In_lookup; [exact ND'|].
    eapply Permutation_in; [exact P|]. apply OD_lookup_In; exact E.
  - destruct (OD.lookup k d') as [v|] eqn:E'; [|reflexivity].
    apply OD_lookup_In in E'. apply (Permutation_in _ (Permutation_sym P)) in E'.
    apply OD_In_lookup in E'; [congruence|exact ND].
Qed.

(** ** C1: a delta that breaks sequence continuity is still applied *)




(** ** Client-state lemmas *)

Lemma hread_app_nil h l : hread (List.app h [[]]) l = hread h l.
Proof.
  unfold hread. destruct (Nat.lt_ge_cases l (List.length h)) as [H|H].
  - apply app_nth1; exact H.
  - rewrite app_nth2 by exact H. rewrite (nth_overflow h) by exact H.
    destruct (l - List.length h)%nat as [|[|n]]; reflexivity.
Qed.

Lemma hread_app_nil_len h : hread (List.app h [[]]) (List.length h) = [].
Proof. unfold hread. rewrite app_nth2 by lia. rewrite Nat.sub_diag. reflexivity. Qed.

Lemma bkind_eq_dec (a b : bkind) : {a = b} + {a <> b}.
Proof. decide equality. Defined.

Lemma bkind_eqb_refl k : bkind_eqb k k = true.
Proof. destruct k; reflexivity. Qed.

Lemma bkind_eqb_true a b : bkind_eqb a b = true -> a = b.
Proof. destruct a, b; simpl; congruence. Qed.

Lemma trace_emit e c : trace (emit e c) = trace c ++ [e].
Proof. reflexivity. Qed.
Lemma storage_emit e c : storage (emit e c) = storage c.
Proof. reflexivity. Qed.
Lemma heap_emit e c : heap (emit e c) = heap c.
Proof. reflexivity. Qed.
Lemma batch_of_emit e c k : batch_of (emit e c) k = batch_of c k.
Proof. reflexivity. Qed.
Lemma buf_emit e c k : buf (emit e c) k = buf c k.
Proof. reflexivity. Qed.
Lemma trace_assign_fresh k c : trace (assign_fresh k c) = trace c.
Proof. reflexivity. Qed.
Lemma storage_assign_fresh k c : storage (assign_fresh k c) = storage c.
Proof. reflexivity. Qed.
Lemma heap_assign_fresh k c : heap (assign_fresh k c) = List.app (heap c) [[]].
Proof. reflexivity. Qed.

Lemma batch_of_assign_fresh k c k' :
  batch_of (assign_fresh k c) k' = if bkind_eqb k k' then List.length (heap c) else batch_of c k'.
Proof. reflexivity. Qed.

Lemma buf_assign_fresh k c k' :
  buf (assign_fresh k c) k' = if bkind_eqb k k' then [] else buf c k'.
Proof.
  unfold buf. rewrite heap_assign_fresh, batch_of_assign_fresh.
  destruct (bkind_eqb k k'); [apply hread_app_nil_len|apply hread_app_nil].
Qed.

Create Rewrite HintDb client.
#[local] Hint Rewrite trace_emit storage_emit heap_emit batch_of_emit buf_emit
  trace_assign_fresh storage_assign_fresh heap_assign_fresh batch_of_assign_fresh
  buf_assign_fresh bkind_eqb_refl : client.

Ltac solve_extends :=
  unfold extends; autorewrite with client in *; eexists; repeat rewrite <- app_assoc; reflexivity.

Ltac solve_handed r :=
  unfold handed; autorewrite with client in *; eexists; split;
  [repeat rewrite <- app_assoc; reflexivity
  |do 4 eexists; split; [simpl; left; reflexivity|]; assumption].

Lemma extends_trans c1 c2 c3 : extends c1 c2 -> extends c2 c3 -> extends c1 c3.
Proof.
  intros [e1 H1] [e2 H2]. exists (e1 ++ e2). rewrite H2, H1, app_assoc. reflexivity.
Qed.

Lemma handed_extends r c1 c2 c3 : handed r c1 c2 -> extends c2 c3 -> handed r c1 c3.
Proof.
  intros [e1 [H1 [m [a [cu [p [Hin Hr]]]]]]] [e2 H2].
  exists (e1 ++ e2). split; [rewrite H2, H1, app_assoc; reflexivity|].
  exists m, a, cu, p. split; [apply in_or_app; left; exact Hin|exact Hr].
Qed.

Lemma handed_prefix r c1 c2 c3 : extends c1 c2 -> handed r c2 c3 -> handed r c1 c3.
Proof.
  intros [e1 H1] [e2 [H2 [m [a [cu [p [Hin Hr]]]]]]].
  exists (e1 ++ e2). split; [rewrite H2, H1, app_assoc; reflexivity|].
  exists m, a, cu, p. split; [apply in_or_app; right; exact Hin|exact Hr].
Qed.

Lemma drains_compose F G ks1 ks2 :
  drains F ks1 -> drains G ks2 -> drains (fun c => G (F c)) (ks1 ++ ks2).
Proof.
  intros [Fe Fs Fo Fh] [Ge Gs Go Gh]. constructor.
  - intro c. eapply extends_trans; [apply Fe|apply Ge].
  - intro c. rewrite Gs, Fs. reflexivity.
  - intros c k Hk. rewrite Go, Fo; [reflexivity| |];
      intro; apply Hk; apply in_or_app; auto.
  - intros c k r Hk Hs Hr.
    destruct (in_dec bkind_eq_dec k ks1) as [H1|H1].
    + eapply handed_extends; [exact (Fh c k r H1 Hs Hr)|apply Ge].
    + apply in_app_or in Hk. destruct Hk as [Hk|Hk]; [contradiction|].
      eapply handed_prefix; [apply Fe|]. apply (Gh (F c) k r Hk); [rewrite Fs; exact Hs|].
      rewrite Fo; assumption.
Qed.

(** ** Each handler's flush drains its own buffers *)

Ltac flush_cases :=
  repeat match goal with
  | |- context [match buf ?c ?k with _ => _ end] =>
      let E := fresh "Eb" in destruct (buf c k) eqn:E
  | |- context [if storage ?c then _ else _] =>
      let E := fresh "Es" in destruct (storage c) eqn:E
  | |- context [match ?w ?m ?p with WOk => _ | WErr _ => _ end] =>
      let E := fresh "Ew" in destruct (w m p) eqn:E
  | |- context [if contains ?a ?b then _ else _] =>
      let E := fresh "Ec" in destruct (contains a b) eqn:E
  end; cbn -[trace buf storage emit assign_fresh heap batch_of contains] in *.

Ltac other_kind Hk :=
  autorewrite with client;
  match goal with
  | |- context [bkind_eqb ?a ?b] =>
      destruct (bkind_eqb a b) eqn:E;
      [apply bkind_eqb_true in E; subst; exfalso; apply Hk; simpl; auto|reflexivity]
  | _ => reflexivity
  end.

Lemma In_single (k k0 : bkind) : In k [k0] -> k = k0.
Proof. intros [->|[]]. reflexivity. Qed.

Lemma trades_flush_drains wr : drains (trades_flush wr) [KTrades].
Proof.
  constructor.
  - intro c. unfold trades_flush, trades_flush_batch. flush_cases;
      try (exists []; rewrite app_nil_r; reflexivity); solve_extends.
  - intro c. unfold trades_flush, trades_flush_batch. flush_cases;
      autorewrite with client; first [reflexivity|congruence].
  - intros c k Hk. unfold trades_flush, trades_flush_batch. flush_cases; other_kind Hk.
  - intros c k r Hk Hs Hr. apply In_single in Hk. subst k.
    unfold trades_flush, trades_flush_batch. flush_cases;
      try contradiction; try (rewrite Eb in Hr; destruct Hr); try congruence;
      solve_handed r; rewrite <- Eb; exact Hr.
Qed.

Lemma ob_flush_buffer_drains k meth wr : drains (ob_flush_buffer k meth wr) [k].
Proof.
  constructor.
  - intro c. unfold ob_flush_buffer. flush_cases;
      try (exists []; rewrite app_nil_r; reflexivity); solve_extends.
  - intro c. unfold ob_flush_buffer. flush_cases;
      autorewrite with client in *; first [reflexivity|congruence].
  - intros c k' Hk. unfold ob_flush_buffer. flush_cases; other_kind Hk.
  - intros c k' r Hk Hs Hr. apply In_single in Hk. subst k'.
    unfold ob_flush_buffer. flush_cases; autorewrite with client in *;
      try contradiction; try congruence;
      solve_handed r; rewrite <- Eb; exact Hr.
Qed.

Lemma guarded_flush_drains k meth zero wr : drains (guarded_flush k meth zero wr) [k].
Proof.
  constructor.
  - intro c. unfold guarded_flush, guarded_flush_batch. flush_cases;
      try (exists []; rewrite app_nil_r; reflexivity); solve_extends.
  - intro c. unfold guarded_flush, guarded_flush_batch. flush_cases;
      autorewrite with client in *; first [reflexivity|congruence].
  - intros c k' Hk. unfold guarded_flush, guarded_flush_batch. flush_cases; other_kind Hk.
  - intros c k' r Hk Hs Hr. apply In_single in Hk. subst k'.
    unfold guarded_flush, guarded_flush_batch. flush_cases; autorewrite with client in *;
      try contradiction; try congruence;
      solve_handed r; rewrite <- Eb; exact Hr.
Qed.

Lemma ob_flush_drains wr : drains (ob_flush wr) [KSnapshots; KUpdates].
Proof.
  exact (drains_compose _ _ [KSnapshots] [KUpdates]
           (ob_flush_buffer_drains _ _ wr) (ob_flush_buffer_drains _ _ wr)).
Qed.

Lemma all_kinds_complete k : In k all_kinds.
Proof. destruct k; simpl; tauto. Qed.

Lemma flush_all_handlers_drains wr : drains (flush_all_handlers wr) all_kinds.
Proof.
  unfold flush_all_handlers, all_kinds.
  change [KTrades; KSnapshots; KUpdates; KFunding; KMark; KTickers; KOpenInterest]
    with ((((([KTrades] ++ [KSnapshots; KUpdates]) ++ [KFunding]) ++ [KMark]) ++ [KTickers])
          ++ [KOpenInterest]).
  repeat apply drains_compose;
    first [apply trades_flush_drains | apply ob_flush_drains | apply guarded_flush_drains].
Qed.

(** ** Buffer contents after a flush *)

Lemma ob_flush_buffer_empties k meth wr c : buf (ob_flush_buffer k meth wr c) k = [].
Proof.
  unfold ob_flush_buffer. flush_cases; autorewrite with client in *; congruence.
Qed.

Lemma ob_flush_empties wr c :
  buf (ob_flush wr c) KSnapshots = [] /\ buf (ob_flush wr c) KUpdates = [].
Proof.
  unfold ob_flush. split.
  - rewrite (dr_other _ _ (ob_flush_buffer_drains KUpdates "write_orderbook_updates" wr))
      by (simpl; intros [H|[]]; discriminate).
    apply ob_flush_buffer_empties.
  - apply ob_flush_buffer_empties.
Qed.

Lemma extends_emit e c : extends c (emit e c).
Proof. solve_extends. Qed.

Lemma extends_refl c : extends c c.
Proof. exists []. rewrite app_nil_r. reflexivity. Qed.

Lemma drops_compose F G ks1 ks2 : drops F ks1 -> drops G ks2 -> drops (fun c => G (F c)) (ks1 ++ ks2).
Proof.
  intros [Fs Fw Fe Fk] [Gs Gw Ge Gk]. constructor.
  - intros c Hs. apply Gs, Fs, Hs.
  - intros c Hs. destruct (Fw c Hs) as [e1 [T1 W1]]. destruct (Gw (F c) (Fs c Hs)) as [e2 [T2 W2]].
    exists (e1 ++ e2). split; [rewrite T2, T1, app_assoc; reflexivity|apply Forall_app; split; assumption].
  - intros c k Hs Hk. apply in_app_or in Hk. destruct Hk as [Hk|Hk].
    + apply Gk; [apply Fs, Hs|apply Fe; assumption].
    + apply Ge; [apply Fs, Hs|exact Hk].
  - intros c k Hs Hb. apply Gk; [apply Fs, Hs|apply Fk; assumption].
Qed.

Lemma drops_emit e : is_write e = false -> drops (emit e) [].
Proof.
  intro He. constructor.
  - intros c Hs. exact Hs.
  - intros c _. exists [e]. split; [reflexivity|constructor; [exact He|constructor]].
  - intros c k _ [].
  - intros c k _ Hb. rewrite buf_emit. exact Hb.
Qed.

Lemma trades_flush_drops wr : drops (trades_flush wr) [].
Proof.
  constructor.
  - intros c Hs. rewrite (dr_storage _ _ (trades_flush_drains wr)). exact Hs.
  - intros c Hs. unfold trades_flush, trades_flush_batch. flush_cases; try congruence;
      autorewrite with client; repeat rewrite <- app_assoc;
      first [exists []; rewrite app_nil_r; split; [reflexivity|constructor]
            |eexists; split; [reflexivity|repeat constructor]].
  - intros c k _ [].
  - intros c k Hs Hb. destruct (bkind_eq_dec k KTrades) as [->|Hk].
    + unfold trades_flush. rewrite Hb. exact Hb.
    + rewrite (dr_other _ _ (trades_flush_drains wr)); [exact Hb|intros [H|[]]; congruence].
Qed.

Lemma ob_flush_buffer_drops k meth wr : drops (ob_flush_buffer k meth wr) [k].
Proof.
  constructor.
  - intros c Hs. rewrite (dr_storage _ _ (ob_flush_buffer_drains k meth wr)). exact Hs.
  - intros c Hs. unfold ob_flush_buffer. flush_cases; autorewrite with client in *; try congruence;
      (exists []; rewrite app_nil_r; split; [reflexivity|apply List.Forall_nil]).
  - intros c k' _ Hk. apply In_single in Hk. subst k'. apply ob_flush_buffer_empties.
  - intros c k' Hs Hb. destruct (bkind_eq_dec k' k) as [->|Hk]; [apply ob_flush_buffer_empties|].
    rewrite (dr_other _ _ (ob_flush_buffer_drains k meth wr)); [exact Hb|intros [H|[]]; congruence].
Qed.

Lemma guarded_flush_drops k meth zero wr : drops (guarded_flush k meth zero wr) [k].
Proof.
  assert (E : forall c, storage c = false -> buf (guarded_flush k meth zero wr c) k = []).
  { intros c Hs. unfold guarded_flush, guarded_flush_batch. flush_cases;
      autorewrite with client in *; congruence. }
  constructor.
  - intros c Hs. rewrite (dr_storage _ _ (guarded_flush_drains k meth zero wr)). exact Hs.
  - intros c Hs. unfold guarded_flush, guarded_flush_batch. flush_cases; try congruence;
      autorewrite with client; repeat rewrite <- app_assoc;
      first [exists []; rewrite app_nil_r; split; [reflexivity|constructor]
            |eexists; split; [reflexivity|repeat constructor]].
  - intros c k' Hs Hk. apply In_single in Hk. subst k'. apply E, Hs.
  - intros c k' Hs Hb. destruct (bkind_eq_dec k' k) as [->|Hk]; [apply E, Hs|].
    rewrite (dr_other _ _ (guarded_flush_drains k meth zero wr)); [exact Hb|intros [H|[]]; congruence].
Qed.

Lemma ob_flush_drops wr : drops (ob_flush wr) [KSnapshots; KUpdates].
Proof.
  exact (drops_compose _ _ [KSnapshots] [KUpdates]
           (ob_flush_buffer_drops _ _ wr) (ob_flush_buffer_drops _ _ wr)).
Qed.

Lemma flush_all_handlers_drops wr :
  drops (flush_all_handlers wr) [KSnapshots; KUpdates; KFunding; KMark; KTickers; KOpenInterest].
Proof.
  unfold flush_all_handlers.
  change [KSnapshots; KUpdates; KFunding; KMark; KTickers; KOpenInterest]
    with ((((([] ++ [KSnapshots; KUpdates]) ++ [KFunding]) ++ [KMark]) ++ [KTickers])
          ++ [KOpenInterest]).
  repeat apply drops_compose;
    first [apply trades_flush_drops | apply ob_flush_drops | apply guarded_flush_drops].
Qed.

Lemma trades_flush_no_storage_keeps wr c :
  storage c = false -> buf (trades_flush wr c) KTrades = buf c KTrades.
Proof.
  intro Hs. unfold trades_flush, trades_flush_batch.
  destruct (buf c KTrades) as [|x l] eqn:Eb; [exact Eb|]. rewrite Hs. cbv zeta.
  replace (contains "ClickHouse error writing trades: 0"
             "'NoneType' object has no attribute 'write_trades'") with false
    by (vm_compute; reflexivity).
  autorewrite with client. exact Eb.
Qed.

Lemma flush_all_handlers_no_storage_trades wr c :
  storage c = false -> buf (flush_all_handlers wr c) KTrades = buf c KTrades.
Proof.
  intro Hs. unfold flush_all_handlers, open_interest_flush, tickers_flush, mark_flush, funding_flush.
  repeat rewrite (dr_other _ _ (guarded_flush_drains _ _ _ wr)) by (intros [H|[]]; discriminate).
  rewrite (dr_other _ _ (ob_flush_drains wr)) by (intros [H|[H|[]]]; discriminate).
  apply trades_flush_no_storage_keeps, Hs.
Qed.

Lemma handed_close r c x : handed r c x -> handed r c (if storage x then emit EvClose x else x).
Proof. intro H. destruct (storage x); [|exact H]. eapply handed_extends; [exact H|apply extends_emit]. Qed.




(** ** Which list object each writer call receives *)

Lemma allocated_assign_fresh k c : allocated c -> allocated (assign_fresh k c).
Proof.
  intros H k'. rewrite batch_of_assign_fresh, heap_assign_fresh, length_app. simpl.
  destruct (bkind_eqb k k'); [lia|specialize (H k'); lia].
Qed.

Lemma allocated_emit e c : allocated c -> allocated (emit e c).
Proof. intros H k. exact (H k). Qed.

Ltac solve_args :=
  autorewrite with client in *; eexists; split;
  [repeat rewrite <- app_assoc; reflexivity
  |let m := fresh in let a := fresh in let cu := fresh in let p := fresh in
   let Hin := fresh in
   intros m a cu p Hin; simpl in Hin;
   repeat (destruct Hin as [Hin|Hin]; [try discriminate Hin|]); try contradiction;
   injection Hin; intros; subst; auto].

Lemma ob_flush_buffer_swapped k meth wr c :
  allocated c ->
  allocated (ob_flush_buffer k meth wr c) /\
  exists evs, trace (ob_flush_buffer k meth wr c) = trace c ++ evs /\ write_args_differ evs.
Proof.
  intro Ha. unfold ob_flush_buffer. flush_cases.
  - split; [exact Ha|exists []; rewrite app_nil_r; split; [reflexivity|intros ? ? ? ? []]].
  - split; [repeat apply allocated_emit; apply allocated_assign_fresh; exact Ha|].
    solve_args. specialize (Ha k). lia.
  - split; [repeat apply allocated_emit; apply allocated_assign_fresh; exact Ha|].
    solve_args. specialize (Ha k). lia.
  - split; [apply allocated_assign_fresh; exact Ha|].
    exists []. autorewrite with client. rewrite app_nil_r. split; [reflexivity|intros ? ? ? ? []].
Qed.

(** Claim C2 (amended): the order-book flushes ([_flush_snapshots],
    [_flush_updates], also when size-triggered) rebind the buffer to a
    fresh list before the writer call, so the writer receives a list other
    than the current buffer; the trades flush and the funding, mark-price,
    tickers and open-interest flushes call the writer on the current buffer
    itself.  With a writer configured, that call is the first event of
    their flush, and the buffer is rebound to a fresh list after it exactly
    when it returns or raises with the ClickHouse ["... : 0"] message;
    after any other error the attribute still refers to the same list. *)
Theorem flush_swap_discipline (wr : writer) (c : client) (k : bkind) (meth zero : string) :
  (allocated c ->
   exists evs, trace (ob_flush_buffer k meth wr c) = trace c ++ evs /\ write_args_differ evs) /\
  (exists evs, trace (trades_flush_batch wr c) = trace c ++ evs /\ write_args_live evs) /\
  (exists evs, trace (guarded_flush_batch k meth zero wr c) = trace c ++ evs /\ write_args_live evs) /\
  (storage c = true -> buf c KTrades <> [] ->
   (exists evs, trace (trades_flush_batch wr c) =
      trace c ++ EvWrite "write_trades" (batch_of c KTrades) (batch_of c KTrades) (buf c KTrades) :: evs) /\
   batch_of (trades_flush_batch wr c) KTrades =
     match wr "write_trades" (buf c KTrades) with
     | WOk => List.length (heap c)
     | WErr m => if contains "ClickHouse error writing trades: 0" m
                 then List.length (heap c) else batch_of c KTrades
     end) /\
  (storage c = true -> buf c k <> [] ->
   (exists evs, trace (guarded_flush_batch k meth zero wr c) =
      trace c ++ EvWrite meth (batch_of c k) (batch_of c k) (buf c k) :: evs) /\
   batch_of (guarded_flush_batch k meth zero wr c) k =
     match wr meth (buf c k) with
     | WOk => List.length (heap c)
     | WErr m => if contains zero m then List.length (heap c) else batch_of c k
     end).
Proof.
  split; [intro Ha; exact (proj2 (ob_flush_buffer_swapped k meth wr c Ha))|].
  split; [|split; [|split]].
  - unfold trades_flush_batch. flush_cases;
      try (exists []; rewrite app_nil_r; split; [reflexivity|intros ? ? ? ? []]); solve_args.
  - unfold guarded_flush_batch. flush_cases;
      try (exists []; rewrite app_nil_r; split; [reflexivity|intros ? ? ? ? []]); solve_args.
  - intros Hs Hb. unfold trades_flush_batch.
    destruct (buf c KTrades) as [|x l]; [contradiction|]. rewrite Hs. cbv zeta.
    destruct (wr "write_trades" (x :: l)) as [|m];
      [|destruct (contains "ClickHouse error writing trades: 0" m)];
      autorewrite with client; rewrite ?bkind_eqb_refl;
      (split; [eexists; rewrite <- ?app_assoc; reflexivity|reflexivity]).
  - intros Hs Hb. unfold guarded_flush_batch.
    destruct (buf c k) as [|x l]; [contradiction|]. rewrite Hs. cbv zeta.
    destruct (wr meth (x :: l)) as [|m]; [|destruct (contains zero m)];
      autorewrite with client; rewrite ?bkind_eqb_refl;
      (split; [eexists; rewrite <- ?app_assoc; reflexivity|reflexivity]).
Qed.

Lemma flush_swap_discipline_witness :
  allocated client_with_snapshot /\
  (exists evs, trace (ob_flush_buffer KSnapshots "write_orderbook_snapshots" writer_timeout
                        client_with_snapshot) = trace client_with_snapshot ++ evs /\
               write_args_differ evs) /\
  storage client_with_snapshot = true /\ buf client_with_snapshot KTrades <> [] /\
  batch_of (trades_flush_batch writer_timeout client_with_snapshot) KTrades =
    batch_of client_with_snapshot KTrades.
Proof.
  assert (Ha : allocated client_with_snapshot)
    by (intro k; destruct k; apply Nat.ltb_lt; vm_compute; reflexivity).
  assert (Hs : storage client_with_snapshot = true) by reflexivity.
  assert (Hb : buf client_with_snapshot KTrades <> []) by (vm_compute; discriminate).
  destruct (flush_swap_discipline writer_timeout client_with_snapshot KSnapshots
              "write_orderbook_snapshots" "0") as [H1 [_ [_ [H4 _]]]].
  split; [exact Ha|]. split; [exact (H1 Ha)|]. split; [exact Hs|]. split; [exact Hb|].
  destruct (H4 Hs Hb) as [_ E]. rewrite E. vm_compute. reflexivity.
Defined.

(** Claim C2 fails for the trades flush: its writer call receives the
    list object at location 0, which is the one [self.batch] refers to. *)
Lemma trades_flush_writes_current_buffer :
  batch_of client_with_trade KTrades = 0%nat /\
  hd_error (trace (trades_flush writer_ok client_with_trade)) =
    Some (EvWrite "write_trades" 0%nat 0%nat [RTrade sample_trade]).
Proof. vm_compute. split; reflexivity. Qed.


Lemma ob_flush_buffer_no_storage k meth wr c :
  storage c = false -> trace (ob_flush_buffer k meth wr c) = trace c.
Proof.
  intro Hs. unfold ob_flush_buffer. flush_cases; autorewrite with client in *;
    first [reflexivity|congruence].
Qed.

Lemma quiet_nil : quiet [].
Proof. intros e []. Qed.

(** Claim C10: after a failed storage initialisation the client keeps
    running with no writer; a flush of the order-book buffers or of the
    funding-rate buffer then empties them, makes no writer call and logs
    no error. *)
Theorem no_storage_flush_discards_silently (wr : writer) (c : client) (m : string) :
  (exists c', run_forever_start (InitErr m) c = SupLoop c' /\ storage c' = false) /\
  (storage c = false ->
   buf (ob_flush wr c) KSnapshots = [] /\ buf (ob_flush wr c) KUpdates = [] /\
   (exists evs, trace (ob_flush wr c) = trace c ++ evs /\ quiet evs) /\
   buf (funding_flush wr c) KFunding = [] /\
   (exists evs, trace (funding_flush wr c) = trace c ++ evs /\ quiet evs)).
Proof.
  split; [eexists; split; reflexivity|]. intro Hs.
  destruct (ob_flush_empties wr c) as [E1 E2].
  split; [exact E1|]. split; [exact E2|]. split.
  - exists []. rewrite app_nil_r. split; [|exact quiet_nil].
    unfold ob_flush, flush_updates, flush_snapshots.
    rewrite ob_flush_buffer_no_storage, ob_flush_buffer_no_storage; [reflexivity|exact Hs|].
    rewrite (dr_storage _ _ (ob_flush_buffer_drains _ _ wr)). exact Hs.
  - unfold funding_flush, guarded_flush, guarded_flush_batch. rewrite Hs.
    destruct (buf c KFunding) as [|x l] eqn:Eb.
    + split; [exact Eb|exists []; rewrite app_nil_r; split; [reflexivity|exact quiet_nil]].
    + cbn -[trace buf storage emit assign_fresh heap batch_of contains].
      autorewrite with client. split; [reflexivity|].
      eexists; split; [reflexivity|]. intros e [<-|[]]. split; reflexivity.
Qed.

Lemma no_storage_flush_discards_silently_witness :
  storage client_nostore_funding = false /\
  buf (funding_flush writer_ok client_nostore_funding) KFunding = [] /\
  exists evs, trace (funding_flush writer_ok client_nostore_funding) =
                trace client_nostore_funding ++ evs /\ quiet evs.
Proof.
  assert (Hs : storage client_nostore_funding = false) by reflexivity.
  split; [exact Hs|].
  destruct (proj2 (no_storage_flush_discards_silently writer_ok client_nostore_funding
                     "connection refused") Hs) as [_ [_ [_ [E H]]]].
  split; [exact E|exact H].
Defined.

(** ** Buffers after a failed or successful write *)

(** Claim C3 (amended): the order-book flush always empties both of its
    buffers.  The trades flush and the funding, mark-price, tickers and
    open-interest flushes empty their buffer when the writer succeeds or
    its error message carries the ClickHouse "0" marker, and otherwise
    keep the whole batch for the next flush; with no writer configured the
    latter four empty it too. *)
Theorem flush_empties_buffer_unless_write_fails (wr : writer) (c : client) (k : bkind)
    (meth zero m : string) :
  (buf (ob_flush wr c) KSnapshots = [] /\ buf (ob_flush wr c) KUpdates = []) /\
  (storage c = true -> wr "write_trades" (buf c KTrades) = WOk ->
     buf (trades_flush wr c) KTrades = []) /\
  (storage c = true -> wr "write_trades" (buf c KTrades) = WErr m ->
     buf (trades_flush wr c) KTrades =
       if contains "ClickHouse error writing trades: 0" m then [] else buf c KTrades) /\
  (storage c = true -> wr meth (buf c k) = WOk ->
     buf (guarded_flush k meth zero wr c) k = []) /\
  (storage c = true -> wr meth (buf c k) = WErr m ->
     buf (guarded_flush k meth zero wr c) k = if contains zero m then [] else buf c k) /\
  (storage c = false -> buf (guarded_flush k meth zero wr c) k = []).
Proof.
  split; [apply ob_flush_empties|].
  unfold trades_flush, trades_flush_batch, guarded_flush, guarded_flush_batch.
  repeat split; intros Hs;
    [intros Hw|intros Hw|intros Hw|intros Hw|];
    (destruct (buf c _) as [|x l] eqn:Eb;
     [rewrite ?Eb; try destruct (contains _ m); reflexivity|]);
    rewrite ?Hs; try rewrite Hw; cbn -[trace buf storage emit assign_fresh heap batch_of contains];
    try (destruct (contains _ m));
    autorewrite with client; auto.
Qed.

Lemma flush_empties_buffer_unless_write_fails_witness :
  storage client_with_trade = true /\
  writer_ok "write_trades" (buf client_with_trade KTrades) = WOk /\
  buf (trades_flush writer_ok client_with_trade) KTrades = [].
Proof.
  assert (Hs : storage client_with_trade = true) by reflexivity.
  assert (Hw : writer_ok "write_trades" (buf client_with_trade KTrades) = WOk) by reflexivity.
  split; [exact Hs|]. split; [exact Hw|].
  exact (proj1 (proj2 (flush_empties_buffer_unless_write_fails writer_ok client_with_trade
                         KTrades "write_trades" "0" "timeout")) Hs Hw).
Defined.

(** Claim C3 fails when the writer raises: the trades flush keeps the
    batch it could not write. *)
Lemma trades_flush_keeps_batch_on_writer_error :
  storage client_with_trade = true /\
  buf (trades_flush writer_timeout client_with_trade) KTrades = [RTrade sample_trade].
Proof. vm_compute. split; reflexivity. Qed.

(** ** Trades parsing *)

Lemma hset_length h l v : List.length (hset h l v) = List.length h.
Proof. revert l; induction h as [|x r IH]; intros [|l]; simpl; auto. Qed.

Lemma hread_hset_same h l v : (l < List.length h)%nat -> hread (hset h l v) l = v.
Proof.
  unfold hread. revert l; induction h as [|x r IH]; intros [|l] H; simpl in *; try lia; auto.
  apply IH. lia.
Qed.

Lemma buf_extend_same k xs c : allocated c -> buf (buf_extend k xs c) k = buf c k ++ xs.
Proof.
  intro Ha. unfold buf, buf_extend, set_heap. simpl. apply hread_hset_same. apply Ha.
Qed.

Lemma allocated_buf_extend k xs c : allocated c -> allocated (buf_extend k xs c).
Proof. intros Ha k'. unfold buf_extend, set_heap. simpl. rewrite hset_length. apply Ha. Qed.

Lemma add_trades_buf now data c :
  allocated c -> trades_no_raise now data ->
  buf (fst (add_trades now data c)) KTrades = buf c KTrades ++ parsed_trades now data.
Proof.
  unfold trades_no_raise.
  revert c; induction data as [|t r IH]; intros c Ha Hn; simpl.
  - rewrite app_nil_r. reflexivity.
  - inversion Hn as [|? ? Ht Hr]; subst.
    destruct (process_trade now t) as [[row|]|e]; [| |discriminate Ht].
    + rewrite IH by (try exact Hr; apply allocated_emit, allocated_buf_extend; exact Ha).
      rewrite buf_emit, buf_extend_same by exact Ha. rewrite <- app_assoc. reflexivity.
    + rewrite IH by (try exact Hr; apply allocated_emit; exact Ha). rewrite buf_emit. reflexivity.
Qed.




(** ** Reconnect backoff *)

Lemma rhe_exact m d : (0 < d)%Z -> rhe (m * d) d = m.
Proof.
  intro Hd. unfold rhe. rewrite Z.div_mul, Z.mod_mul by lia.
  replace (2 * 0)%Z with 0%Z by lia.
  destruct d; try lia. reflexivity.
Qed.

Lemma Qle_bool_eqv a b a' b' : a == a' -> b == b' -> Qle_bool a b = Qle_bool a' b'.
Proof.
  intros Ha Hb. destruct (Qle_bool a b) eqn:E, (Qle_bool a' b') eqn:E'; auto.
  - apply Qle_bool_iff in E. rewrite Ha, Hb in E. apply Qle_bool_iff in E. congruence.
  - apply Qle_bool_iff in E'. rewrite <- Ha, <- Hb in E'. apply Qle_bool_iff in E'. congruence.
Qed.

Lemma Qred_inject_Z z : Qred (inject_Z z) = inject_Z z.
Proof.
  unfold Qred, inject_Z. cbn [Qnum Qden].
  pose proof (Z.ggcd_correct_divisors z 1) as Hd. pose proof (Z.ggcd_gcd z 1) as Hg.
  destruct (Z.ggcd z 1) as [g [a b]]. cbn in Hg. rewrite Z.gcd_1_r in Hg. subst g.
  destruct Hd as [Ha Hb]. rewrite Z.mul_1_l in Ha, Hb. subst. reflexivity.
Qed.

Lemma pow2_nonneg k : (0 <= k)%Z -> pow2 k = inject_Z (2 ^ k).
Proof. intro H. unfold pow2. rewrite (proj2 (Z.leb_le _ _) H). reflexivity. Qed.

Lemma round_pos_pow2 k : (0 <= k)%Z ->
  round_pos (2 ^ k) 1 = if (1024 <=? k)%Z then FInf false else FFin (inject_Z (2 ^ k)).
Proof.
  intro Hk. unfold round_pos.
  assert (Hf : flog2 (2 ^ k) 1 = k).
  { unfold flog2. rewrite Z.log2_pow2 by exact Hk. simpl Z.log2.
    rewrite Z.sub_0_r, pow2_nonneg by exact Hk.
    replace (Qle_bool (inject_Z (2 ^ k)) (2 ^ k # Z.to_pos 1)) with true; [reflexivity|].
    symmetry. apply Qle_bool_iff. apply Qle_refl. }
  rewrite Hf.
  replace (Z.max (k - 52) (-1074)) with (k - 52)%Z by lia.
  set (v := Qmult (inject_Z (if (k - 52 <? 0)%Z then rhe (2 ^ k * 2 ^ (- (k - 52))) 1
                             else rhe (2 ^ k) (1 * 2 ^ (k - 52)))) (pow2 (k - 52))).
  assert (Hv : v == inject_Z (2 ^ k)).
  { unfold v. destruct (Z.ltb_spec (k - 52) 0) as [Hlt|Hge].
    - replace (2 ^ k * 2 ^ (- (k - 52)))%Z with (2 ^ 52 * 1)%Z
        by (rewrite <- Z.pow_add_r by lia; rewrite Z.mul_1_r; f_equal; lia).
      rewrite rhe_exact by lia.
      unfold pow2. rewrite (proj2 (Z.leb_gt _ _) Hlt).
      unfold Qeq, Qmult, inject_Z; simpl Qnum; simpl Qden.
      rewrite ?Pos.mul_1_l, Z2Pos.id by (apply Z.pow_pos_nonneg; lia).
      rewrite <- Z.pow_add_r by lia. replace (k + - (k - 52))%Z with 52%Z by lia. ring.
    - replace (2 ^ k)%Z with (2 ^ 52 * 2 ^ (k - 52))%Z at 1
        by (rewrite <- Z.pow_add_r by lia; f_equal; lia).
      rewrite Z.mul_1_l, rhe_exact by (apply Z.pow_pos_nonneg; lia).
      rewrite pow2_nonneg by lia. rewrite <- inject_Z_mult, <- Z.pow_add_r by lia.
      replace (52 + (k - 52))%Z with k by lia. reflexivity. }
  assert (H1024 : pow2 1024 = inject_Z (2 ^ 1024)) by (apply pow2_nonneg; discriminate).
  rewrite (Qle_bool_eqv (pow2 1024) v (inject_Z (2 ^ 1024)) (inject_Z (2 ^ k)))
    by (rewrite ?H1024; first [exact Hv | reflexivity]).
  replace (Qle_bool (inject_Z (2 ^ 1024)) (inject_Z (2 ^ k))) with (1024 <=? k)%Z.
  - destruct (1024 <=? k)%Z; [reflexivity|]. f_equal.
    rewrite (Qred_complete _ _ Hv). apply Qred_inject_Z.
  - destruct (Z.leb_spec 1024 k) as [H|H]; symmetry.
    + apply Qle_bool_iff. rewrite <- Zle_Qle. apply Z.pow_le_mono_r; lia.
    + apply not_true_iff_false. intro Hc. apply Qle_bool_iff in Hc. rewrite <- Zle_Qle in Hc.
      apply Z.pow_le_mono_r_iff in Hc; lia.
Qed.

Lemma int_to_float_pow2 (k : nat) :
  int_to_float (2 ^ Z.of_nat k) =
    if (k <? 1024)%nat then Ok (FFin (inject_Z (2 ^ Z.of_nat k))) else Raise OverflowError.
Proof.
  unfold int_to_float, round_q.
  assert (Hp : (2 ^ Z.of_nat k)%Z = Zpos (Z.to_pos (2 ^ Z.of_nat k)))
    by (rewrite Z2Pos.id; [reflexivity|apply Z.pow_pos_nonneg; lia]).
  unfold inject_Z at 1. cbn [Qnum Qden]. rewrite Hp at 1. rewrite <- Hp.
  rewrite round_pos_pow2 by lia.
  destruct (Nat.ltb_spec k 1024) as [H|H].
  - replace (1024 <=? Z.of_nat k)%Z with false by (symmetry; apply Z.leb_gt; lia). reflexivity.
  - replace (1024 <=? Z.of_nat k)%Z with true by (symmetry; apply Z.leb_le; lia). reflexivity.
Qed.

Lemma frames_keep_session base cap n s :
  fold_left (session_step base cap) (repeat CFrame n) s = s.
Proof.
  induction n as [|n IH]; [reflexivity|]. cbn [repeat fold_left].
  replace (session_step base cap s CFrame) with s
    by (unfold session_step; destruct (crashed s); reflexivity).
  exact IH.
Qed.




(** ** Storage initialisation failure *)

(** Claim C8 (amended): when storage initialisation raises, [run_forever]
    logs a warning, sets [storage] to None and enters the reconnect loop;
    it neither exits nor alters the handlers' state. *)
Theorem storage_init_failure_keeps_running (m : string) (c : client) :
  exists c', run_forever_start (InitErr m) c = SupLoop c' /\ storage c' = false /\
    books c' = books c /\ heap c' = heap c /\ batch_of c' = batch_of c /\
    trace c' = trace c ++ [EvLog LWarning (String.append "Failed to initialize PostgreSQL storage: "
                              (String.append m ". Working without storage."))].
Proof. eexists. split; [reflexivity|]. repeat split. Qed.

(** Claim C8 fails: a failed initialisation leads to the reconnect loop
    with no writer, not to an exit. *)
Lemma storage_init_failure_does_not_exit :
  match run_forever_start (InitErr "connection refused") client0 with
  | SupLoop c' => storage c' = false
  | SupExit _ => False
  end.
Proof. reflexivity. Qed.

(** ** Resubscribe after a sequence break *)

(** Claim C9 (divergence): the resubscribe callback only logs a warning
    and sends no frame; on a sequence break of a streamed book the socket
    receives neither an unsubscribe nor a subscribe frame. *)
Theorem resubscribe_only_logs (inst : string) (c : client) :
  sent (resubscribe_orderbook inst c) = sent c /\
  trace (resubscribe_orderbook inst c) =
    trace c ++ [EvLog LWarning (String.append "Resubscribe requested for "
                                  (String.append inst " (checksum mismatch)"))] /\
  sent (on_increment writer_ok "snap-2" 2000 btc [gap_frame] client0) =
    [WSSubscribe [("books", btc)]] /\
  In (EvLog LWarning "Resubscribe requested for BTC-USDT-SWAP (checksum mismatch)")
    (trace (on_increment writer_ok "snap-2" 2000 btc [gap_frame] client0)).
Proof.
  split; [reflexivity|]. split; [reflexivity|].
  vm_compute. split; [reflexivity|]. intuition discriminate.
Qed.
Lemma side_rows_shape sid inst ts side idx lv :
  (List.length (side_rows sid inst ts side idx lv) <= List.length lv)%nat /\
  Forall (fun r => row_snapshot_id r = sid /\ row_instId r = inst /\ row_ts_event_ms r = ts /\
                   row_side r = side /\ (idx < row_level r <= idx + List.length lv)%nat)
    (side_rows sid inst ts side idx lv).
Proof.
  revert idx; induction lv as [|[p s] r IH]; intro idx; simpl.
  - split; [lia|constructor].
  - destruct (IH (S idx)) as [Hl Hf].
    destruct (py_float_str p), (py_float_str s); simpl.
    all: try (split; [lia|eapply Forall_impl; [|exact Hf]; simpl; intuition lia]).
    split; [lia|]. constructor; [simpl; repeat split; lia|].
    eapply Forall_impl; [|exact Hf]; simpl; intuition lia.
Qed.

(** ** Materialised snapshot rows *)

(** Claim C4 (divergence): [to_snapshot_rows] returns [] for an invalid
    book and otherwise at most 2K rows carrying the given id, timestamp
    and a level in [1, K], bid rows first; but the bid rows are not
    necessarily price-descending: after a continuous delta with a
    non-numeric price the re-sort raises, the book stays valid with its
    bids out of order, and the snapshot generated on that failure lists
    bids 100, 99, 100.5. *)
Theorem to_snapshot_rows_shape_unsorted_bids (b : OrderBookL2) (sid : string) (t : Z) (K : nat) :
  (is_valid b = false -> to_snapshot_rows b sid t (Some K) = []) /\
  ((0 < K)%nat ->
   (List.length (to_snapshot_rows b sid t (Some K)) <= 2 * K)%nat /\
   Forall (fun r => row_snapshot_id r = sid /\ row_ts_event_ms r = t /\ (1 <= row_level r <= K)%nat)
     (to_snapshot_rows b sid t (Some K)) /\
   exists bs as_, to_snapshot_rows b sid t (Some K) = bs ++ as_ /\
     Forall (fun r => row_side r = 1%Z) bs /\ Forall (fun r => row_side r = 2%Z) as_) /\
  is_valid (snd (apply_updates book_btc bad_price_frame)) = true /\
  qdesc (bid_prices (snap_rows_of
    (buf (on_increment writer_ok "snap-3" 2000 btc [bad_price_frame] client0) KSnapshots))) = false.
Proof.
  split; [intro H; unfold to_snapshot_rows; rewrite H; reflexivity|].
  split; [|vm_compute; split; reflexivity].
  intro HK. destruct K as [|k]; [lia|].
  unfold to_snapshot_rows. destruct (is_valid b); simpl negb; cbv iota.
  2: { split; [simpl; lia|]. split; [constructor|]. exists [], []. repeat constructor. }
  destruct (side_rows_shape sid (inst_id b) t 1 0 (firstn (S k) (bids b))) as [L1 F1].
  destruct (side_rows_shape sid (inst_id b) t 2 0 (firstn (S k) (asks b))) as [L2 F2].
  pose proof (firstn_le_length (S k) (bids b)) as B1.
  pose proof (firstn_le_length (S k) (asks b)) as B2.
  split; [rewrite length_app; lia|]. split.
  - apply Forall_app. split.
    + eapply Forall_impl; [|exact F1]. cbv beta. intros r Hr. intuition lia.
    + eapply Forall_impl; [|exact F2]. cbv beta. intros r Hr. intuition lia.
  - eexists; eexists; split; [reflexivity|]. split.
    + eapply Forall_impl; [|exact F1]. simpl. tauto.
    + eapply Forall_impl; [|exact F2]. simpl. tauto.
Qed.

Lemma to_snapshot_rows_shape_unsorted_bids_witness :
  is_valid (new_book btc 50) = false /\
  to_snapshot_rows (new_book btc 50) "snap-1" 1000 (Some 5%nat) = [] /\
  (0 < 5)%nat /\ (List.length (to_snapshot_rows book_btc "snap-1" 1000 (Some 5%nat)) <= 2 * 5)%nat.
Proof.
  assert (Hv : is_valid (new_book btc 50) = false) by reflexivity.
  assert (HK : (0 < 5)%nat) by lia.
  split; [exact Hv|]. split.
  - exact (proj1 (to_snapshot_rows_shape_unsorted_bids (new_book btc 50) "snap-1" 1000 5%nat) Hv).
  - split; [exact HK|].
    exact (proj1 (proj1 (proj2 (to_snapshot_rows_shape_unsorted_bids book_btc "snap-1" 1000 5%nat)) HK)).
Defined.

(* ================================================================== *)
(** * Further properties of the code *)

(** ** Sorted sides *)

Lemma flt_lt_asym a b : flt_lt a b = true -> flt_lt b a = false.
Proof.
  destruct a as [qa|[|]|], b as [qb|[|]|]; cbn; try congruence.
  unfold Qltb. intro H. apply negb_true_iff in H. apply negb_false_iff.
  apply Qle_bool_iff. apply Qlt_le_weak. apply Qnot_le_lt. intro C.
  apply Qle_bool_iff in C. congruence.
Qed.

Lemma qltb_dir (rev : bool) (a b : pyfloat) :
  (if rev then flt_lt b a else flt_lt a b) = true -> qle_dir rev a b = true.
Proof.
  unfold qle_dir. destruct rev; intro H; rewrite (flt_lt_asym _ _ H); reflexivity.
Qed.

Lemma not_qltb_dir (rev : bool) (a b : pyfloat) :
  (if rev then flt_lt b a else flt_lt a b) = false -> qle_dir rev b a = true.
Proof.
  unfold qle_dir. destruct rev; intro H; rewrite H; reflexivity.
Qed.

Lemma ins_sorted_cons rev a x l :
  qle_dir rev a (fst x) = true -> qsorted rev (a :: map fst l) = true ->
  qsorted rev (a :: map fst (insert_by rev x l)) = true.
Proof.
  revert a; induction l as [|y r IH]; intros a Hax Hs; simpl in *.
  - rewrite Hax. reflexivity.
  - apply andb_true_iff in Hs as [Hay Hs].
    destruct (if rev then flt_lt (fst y) (fst x) else flt_lt (fst x) (fst y)) eqn:E; simpl.
    + rewrite Hax, (qltb_dir _ _ _ E). simpl. exact Hs.
    + rewrite Hay. simpl. apply IH; [apply not_qltb_dir; exact E|exact Hs].
Qed.

Lemma insert_by_sorted rev x l :
  qsorted rev (map fst l) = true -> qsorted rev (map fst (insert_by rev x l)) = true.
Proof.
  destruct l as [|y r]; simpl; [reflexivity|]. intro Hs.
  destruct (if rev then flt_lt (fst y) (fst x) else flt_lt (fst x) (fst y)) eqn:E; simpl.
  - rewrite (qltb_dir _ _ _ E). exact Hs.
  - apply (ins_sorted_cons rev (fst y) x r); [apply not_qltb_dir; exact E|exact Hs].
Qed.

Lemma fold_insert_sorted rev kd acc :
  qsorted rev (map fst acc) = true ->
  qsorted rev (map fst (fold_left (fun acc x => insert_by rev x acc) kd acc)) = true.
Proof.
  revert acc; induction kd as [|x r IH]; intros acc H; simpl; [exact H|].
  apply IH. apply insert_by_sorted. exact H.
Qed.


Lemma keyed_key_ok d kd : keyed d = Some kd -> Forall key_ok kd.
Proof.
  revert kd; induction d as [|[p s] r IH]; intros kd H; simpl in H.
  - injection H as <-. constructor.
  - destruct (py_float_str p) eqn:Ep, (keyed r) as [kr|]; try discriminate.
    injection H as <-. constructor; [exact Ep|apply IH; reflexivity].
Qed.

Lemma keyed_map_snd l : Forall key_ok l -> keyed (map snd l) = Some l.
Proof.
  induction l as [|[q [p s]] r IH]; intro H; simpl; [reflexivity|].
  inversion H as [|? ? Hx Hr]; subst. unfold key_ok in Hx; simpl in Hx.
  rewrite Hx, (IH Hr). reflexivity.
Qed.

Lemma forallb_perm {A} (f : A -> bool) l l' :
  Permutation l l' -> forallb f l = true -> forallb f l' = true.
Proof.
  intros P H. apply forallb_forall. intros x Hx. rewrite forallb_forall in H.
  apply H. eapply Permutation_in; [apply Permutation_sym; exact P|exact Hx].
Qed.

Lemma keyed_not_nan d kd :
  keyed d = Some kd -> Forall (fun p => price_num p = true) (OD.keys d) ->
  forallb (fun x => negb (is_nan (fst x))) kd = true.
Proof.
  intros E H. apply forallb_forall. intros x Hx.
  pose proof (keyed_key_ok _ _ E) as K. rewrite Forall_forall in K, H.
  assert (Hp : In (fst (snd x)) (OD.keys d)).
  { rewrite <- (keyed_snd _ _ E). unfold OD.keys. rewrite map_map.
    exact (in_map (fun y => fst (snd y)) _ _ Hx). }
  specialize (H _ Hp). unfold price_num in H. rewrite (K _ Hx) in H. exact H.
Qed.

Lemma py_sorted_sorted rev d d' :
  Forall (fun p => price_num p = true) (OD.keys d) ->
  py_sorted rev d = Some d' -> side_sorted rev d' = true.
Proof.
  intro Hn.
  unfold py_sorted, side_sorted. destruct (keyed d) as [kd|] eqn:E; intro H; [|discriminate].
  injection H as <-.
  assert (P : Permutation kd (fold_left (fun acc x => insert_by rev x acc) kd [])).
  { apply Permutation_sym; eapply perm_trans;
      [apply fold_insert_perm|rewrite app_nil_r; reflexivity]. }
  rewrite keyed_map_snd.
  - apply andb_true_iff. split.
    + exact (forallb_perm _ _ _ P (keyed_not_nan _ _ E Hn)).
    + apply fold_insert_sorted. reflexivity.
  - eapply Permutation_Forall; [exact P|]. apply (keyed_key_ok d). exact E.
Qed.

Lemma side_sorted_price_num rev d :
  side_sorted rev d = true -> Forall (fun p => price_num p = true) (OD.keys d).
Proof.
  unfold side_sorted. destruct (keyed d) as [kd|] eqn:E; [|discriminate].
  intro H. apply andb_true_iff in H as [Hn _].
  rewrite <- (keyed_snd _ _ E). apply keyed_key_ok in E. unfold OD.keys.
  rewrite map_map. apply Forall_map. rewrite Forall_forall in *. intros x Hx.
  rewrite forallb_forall in Hn. specialize (Hn x Hx). specialize (E x Hx).
  unfold key_ok in E. unfold price_num. rewrite E. exact Hn.
Qed.

Lemma price_num_ok p : price_num p = true -> price_ok p.
Proof. unfold price_num, price_ok. destruct (py_float_str p); congruence. Qed.

Lemma side_sorted_price_ok rev d : side_sorted rev d = true -> Forall price_ok (OD.keys d).
Proof.
  intro H. eapply Forall_impl; [|exact (side_sorted_price_num _ _ H)]. exact price_num_ok.
Qed.

Lemma NoDup_keys_perm d d' : Permutation d d' -> NoDup (OD.keys d) -> NoDup (OD.keys d').
Proof. intros P H. eapply Permutation_NoDup; [apply Permutation_map; exact P|exact H]. Qed.

Lemma size_pos_set p s d :
  size_pos (p, s) = true -> forallb size_pos d = true -> forallb size_pos (OD.set p s d) = true.
Proof.
  intros Hq. induction d as [|[k v] r IH]; simpl; intro H.
  - rewrite Hq. reflexivity.
  - apply andb_true_iff in H as [H1 H2]. destruct (String.eqb p k); simpl.
    + unfold size_pos in Hq |- *. simpl in *. rewrite Hq. exact H2.
    + rewrite H1. simpl. apply IH. exact H2.
Qed.

Lemma size_pos_pop p d : forallb size_pos d = true -> forallb size_pos (OD.pop p d) = true.
Proof.
  unfold OD.pop. intro H. apply forallb_forall. intros x Hx.
  apply filter_In in Hx as [Hx _]. rewrite forallb_forall in H. apply H, Hx.
Qed.

Lemma size_pos_update_fold lvs d :
  forallb size_pos d = true -> forallb size_pos (fold_left update_step lvs d) = true.
Proof.
  revert d; induction lvs as [|lv r IH]; intros d H; simpl; [exact H|].
  apply IH. destruct lv as [[|p [|s rest]]|]; simpl; auto.
  destruct (py_float_str s) as [q|] eqn:E; auto.
  destruct (flt_lt (FFin 0) q) eqn:Eq.
  - apply size_pos_set; [unfold size_pos; simpl; rewrite E; exact Eq|exact H].
  - apply size_pos_pop, H.
Qed.

Lemma price_num_update_fold lvs d :
  Forall (fun p => price_num p = true) (OD.keys d) -> Forall level_price_num lvs ->
  Forall (fun p => price_num p = true) (OD.keys (fold_left update_step lvs d)).
Proof.
  revert d; induction lvs as [|lv r IH]; intros d Hd Hl; simpl; [exact Hd|].
  inversion Hl as [|? ? Hlv Hr]; subst. apply IH; auto.
  destruct lv as [[|p [|s rest]]|]; simpl; auto.
  destruct (py_float_str s) as [q|]; auto.
  rewrite Forall_forall in *. destruct (flt_lt (FFin 0) q); intros x Hx.
  - destruct (OD_keys_set _ _ _ _ Hx) as [->|]; auto.
  - apply Hd. exact (OD_keys_pop _ _ _ Hx).
Qed.

Lemma level_price_num_parses lv : level_price_num lv -> level_price_parses lv.
Proof. destruct lv as [[|p [|s rest]]|]; simpl; auto. apply price_num_ok. Qed.

Lemma snapshot_fold_props lvs d :
  forallb size_pos d = true -> NoDup (OD.keys d) -> Forall price_ok (OD.keys d) ->
  let d' := fold_left snapshot_step lvs d in
  forallb size_pos d' = true /\ NoDup (OD.keys d') /\ Forall price_ok (OD.keys d').
Proof.
  revert d; induction lvs as [|lv r IH]; intros d H1 H2 H3; simpl; [auto|].
  apply IH; destruct lv as [[|p [|s rest]]|]; simpl; auto;
    destruct (py_float_str p) as [qp|] eqn:Ep, (py_float_str s) as [q|] eqn:E; auto;
    destruct (flt_lt (FFin 0) q) eqn:Eq; auto.
  - apply size_pos_set; [unfold size_pos; simpl; rewrite E; exact Eq|exact H1].
  - apply NoDup_set, H2.
  - rewrite Forall_forall in *. intros x Hx.
    destruct (OD_keys_set _ _ _ _ Hx) as [->|]; auto. unfold price_ok. congruence.
Qed.

Lemma snapshot_fold_num lvs d :
  Forall (fun p => price_num p = true) (OD.keys d) -> Forall level_not_nan lvs ->
  Forall (fun p => price_num p = true) (OD.keys (fold_left snapshot_step lvs d)).
Proof.
  revert d; induction lvs as [|lv r IH]; intros d Hd Hl; simpl; [exact Hd|].
  inversion Hl as [|? ? Hlv Hr]; subst. apply IH; auto.
  destruct lv as [[|p [|s rest]]|]; simpl; auto. simpl in Hlv.
  destruct (py_float_str p) as [qp|] eqn:Ep, (py_float_str s) as [q|]; auto.
  destruct (flt_lt (FFin 0) q); auto.
  rewrite Forall_forall in *. intros x Hx.
  destruct (OD_keys_set _ _ _ _ Hx) as [->|]; [|auto].
  unfold price_num. rewrite Ep. destruct qp; try reflexivity; congruence.
Qed.

Lemma snapshot_side_sorted rev lvs :
  exists d', py_sorted rev (fold_left snapshot_step lvs []) = Some d' /\
    (Forall level_not_nan lvs -> side_sorted rev d' = true) /\
    forallb size_pos d' = true /\ NoDup (OD.keys d').
Proof.
  destruct (snapshot_fold_props lvs [] eq_refl (NoDup_nil _) (Forall_nil _)) as [H1 [H2 H3]].
  destruct (py_sorted_some rev _ H3) as [d' E]. exists d'. split; [exact E|].
  pose proof (py_sorted_perm _ _ _ E) as P.
  split; [intro Hn; exact (py_sorted_sorted _ _ _ (snapshot_fold_num lvs [] (Forall_nil _) Hn) E)|].
  split; [exact (forallb_perm _ _ _ P H1)|exact (NoDup_keys_perm _ _ P H2)].
Qed.

(** [apply_snapshot] succeeds iff [ts] and [checksum] are accepted by
    [int()]; the book is valid exactly when it succeeded, it is
    well-formed whenever no price of the frame is NaN, and its sides do
    not depend on the book it replaced. *)
Theorem apply_snapshot_outcome (b b' : OrderBookL2) (f : book_frame) :
  (fst (apply_snapshot b f) = true <->
     py_int (get_or (bf_ts f) (PInt 0)) <> None /\
     py_int (get_or (bf_checksum f) (PInt 0)) <> None) /\
  is_valid (snd (apply_snapshot b f)) = fst (apply_snapshot b f) /\
  (Forall level_not_nan (bf_bids f) -> Forall level_not_nan (bf_asks f) ->
   book_ok (snd (apply_snapshot b f))) /\
  bids (snd (apply_snapshot b f)) = bids (snd (apply_snapshot b' f)) /\
  asks (snd (apply_snapshot b f)) = asks (snd (apply_snapshot b' f)).
Proof.
  destruct (snapshot_side_sorted true (bf_bids f)) as [bs [Eb [Sb [Pb Nb]]]].
  destruct (snapshot_side_sorted false (bf_asks f)) as [as_ [Ea [Sa [Pa Na]]]].
  unfold apply_snapshot. cbv zeta. rewrite Eb, Ea.
  destruct (py_int (get_or (bf_ts f) (PInt 0))) as [ts|];
    [destruct (py_int (get_or (bf_checksum f) (PInt 0))) as [cs|]|]; cbn.
  - split; [split; [intros _; split; discriminate|reflexivity]|].
    split; [reflexivity|]. split; [|split; reflexivity].
    intros Hnb Hna _. cbn. repeat split; auto.
  - split; [split; [discriminate|intros [_ H]; contradiction]|].
    split; [reflexivity|]. split; [intros _ _ H; discriminate H|split; reflexivity].
  - split; [split; [discriminate|intros [H _]; contradiction]|].
    split; [reflexivity|]. split; [intros _ _ H; discriminate H|split; reflexivity].
Qed.

Lemma apply_snapshot_outcome_witness :
  Forall level_not_nan (bf_bids snap_frame_btc) /\ Forall level_not_nan (bf_asks snap_frame_btc) /\
  book_ok (snd (apply_snapshot (new_book btc 50) snap_frame_btc)).
Proof.
  assert (Hb : Forall level_not_nan (bf_bids snap_frame_btc))
    by (repeat constructor; vm_compute; intro H; discriminate H).
  assert (Ha : Forall level_not_nan (bf_asks snap_frame_btc))
    by (repeat constructor; vm_compute; intro H; discriminate H).
  split; [exact Hb|]. split; [exact Ha|].
  exact (proj1 (proj2 (proj2 (apply_snapshot_outcome (new_book btc 50) (new_book btc 0) snap_frame_btc)))
           Hb Ha).
Defined.

Lemma update_side rev lvs d :
  side_sorted rev d = true -> forallb size_pos d = true -> NoDup (OD.keys d) ->
  Forall level_price_num lvs ->
  exists d', py_sorted rev (fold_left update_step lvs d) = Some d' /\
    side_sorted rev d' = true /\ forallb size_pos d' = true /\ NoDup (OD.keys d').
Proof.
  intros S P N L.
  pose proof (price_num_update_fold _ _ (side_sorted_price_num _ _ S) L) as Hn.
  destruct (py_sorted_some rev (fold_left update_step lvs d)
              (Forall_impl _ price_num_ok Hn)) as [d' E].
  exists d'. split; [exact E|]. pose proof (py_sorted_perm _ _ _ E) as Pm.
  split; [exact (py_sorted_sorted _ _ _ Hn E)|].
  split; [exact (forallb_perm _ _ _ Pm (size_pos_update_fold _ _ P))|].
  exact (NoDup_keys_perm _ _ Pm (NoDup_update_fold _ _ N)).
Qed.

Lemma apply_updates_is_valid b f : is_valid (snd (apply_updates b f)) = is_valid b.
Proof.
  unfold apply_updates. cbv zeta.
  destruct (py_int (get_or (bf_checksum f) (PInt 0))); [|reflexivity].
  destruct (py_sorted true _); [|reflexivity].
  destruct (py_sorted false _); [|reflexivity].
  destruct (py_int (get_or (bf_ts f) (PInt 0))); reflexivity.
Qed.

(** For a frame whose level prices are all accepted by [float()] and
    none is NaN, [apply_updates] keeps a well-formed book well-formed and
    never changes its validity; on a valid book it succeeds iff
    [checksum] and [ts] are accepted by [int()]. *)
Theorem apply_updates_keeps_book_ok (b : OrderBookL2) (f : book_frame) :
  book_ok b -> Forall level_price_num (bf_bids f) -> Forall level_price_num (bf_asks f) ->
  book_ok (snd (apply_updates b f)) /\
  is_valid (snd (apply_updates b f)) = is_valid b /\
  (is_valid b = true ->
   (fst (fst (apply_updates b f)) = true <->
      py_int (get_or (bf_checksum f) (PInt 0)) <> None /\
      py_int (get_or (bf_ts f) (PInt 0)) <> None)).
Proof.
  intros Hok Lb La.
  pose proof (apply_updates_is_valid b f) as Hv.
  destruct (is_valid b) eqn:V.
  2: { split; [intro H; congruence|]. split; [exact Hv|discriminate]. }
  destruct (Hok V) as [Sb [Sa [Pb [Pa [Nb Na]]]]].
  destruct (update_side true _ _ Sb Pb Nb Lb) as [bs [Eb [Sb' [Pb' Nb']]]].
  destruct (update_side false _ _ Sa Pa Na La) as [as_ [Ea [Sa' [Pa' Na']]]].
  unfold apply_updates. cbv zeta. rewrite V.
  destruct (py_int (get_or (bf_checksum f) (PInt 0))) as [cs|]; cbn.
  - rewrite Eb, Ea.
    destruct (py_int (get_or (bf_ts f) (PInt 0))) as [ts|]; cbn.
    + split; [intros _; cbn; repeat split; assumption|].
      split; [reflexivity|]. intros _. split; [intros _; split; discriminate|reflexivity].
    + split; [intros _; cbn; repeat split; assumption|].
      split; [reflexivity|]. intros _. split; [discriminate|intros [_ H]; contradiction].
  - split; [exact Hok|].
    split; [first [reflexivity|exact V]|]. intros _. split; [discriminate|intros [H _]; contradiction].
Qed.

Lemma side_rows_keyed sid inst ts side idx lv kd :
  keyed lv = Some kd -> forallb size_pos lv = true ->
  map row_price (side_rows sid inst ts side idx lv) = map fst kd /\
  map row_level (side_rows sid inst ts side idx lv) = seq (S idx) (List.length lv) /\
  Forall (fun r => row_side r = side) (side_rows sid inst ts side idx lv).
Proof.
  revert idx kd; induction lv as [|[p s] r IH]; intros idx kd Hk Hp; simpl in *.
  - injection Hk as <-. repeat constructor.
  - destruct (py_float_str p) as [q|] eqn:Ep; [|discriminate].
    destruct (keyed r) as [kr|]; [|discriminate]. injection Hk as <-.
    apply andb_true_iff in Hp as [Hs Hr]. unfold size_pos in Hs; simpl in Hs.
    destruct (py_float_str s) as [sq|]; [|discriminate].
    destruct (IH (S idx) kr eq_refl Hr) as [H1 [H2 H3]].
    simpl. rewrite H1, H2. repeat split; [constructor; [reflexivity|exact H3]].
Qed.

Lemma keyed_firstn n d kd : keyed d = Some kd -> keyed (firstn n d) = Some (firstn n kd).
Proof.
  revert n kd; induction d as [|[p s] r IH]; intros n kd H; simpl in H.
  - injection H as <-. rewrite !firstn_nil. reflexivity.
  - destruct (py_float_str p) as [q|] eqn:Ep; [|discriminate].
    destruct (keyed r) as [kr|] eqn:Er; [|discriminate]. injection H as <-.
    destruct n; [reflexivity|]. simpl. rewrite Ep, (IH n kr eq_refl). reflexivity.
Qed.

Lemma forallb_firstn {A} (f : A -> bool) n l : forallb f l = true -> forallb f (firstn n l) = true.
Proof.
  intro H. apply forallb_forall. intros x Hx. rewrite forallb_forall in H.
  apply H. rewrite <- (firstn_skipn n l). apply in_or_app. left. exact Hx.
Qed.

Lemma qsorted_firstn rev n l : qsorted rev l = true -> qsorted rev (firstn n l) = true.
Proof.
  revert n; induction l as [|x r IH]; intros n H; [rewrite firstn_nil; reflexivity|].
  destruct n; [reflexivity|]. simpl.
  destruct r as [|y r']; [destruct n; reflexivity|].
  simpl in H. apply andb_true_iff in H as [H1 H2].
  destruct n; [reflexivity|].
  pose proof (IH (S n) H2) as IH'. simpl in IH' |- *. rewrite H1. exact IH'.
Qed.

Lemma filter_all {A} (f : A -> bool) l : Forall (fun x => f x = true) l -> filter f l = l.
Proof. induction 1; simpl; [reflexivity|]. rewrite H. f_equal. assumption. Qed.

Lemma filter_none {A} (f : A -> bool) l : Forall (fun x => f x = false) l -> filter f l = [].
Proof. induction 1; simpl; [reflexivity|]. rewrite H. assumption. Qed.

Lemma side_ok_rows rev sid inst ts side lim d :
  side_sorted rev d = true -> forallb size_pos d = true ->
  let rows := side_rows sid inst ts side 0 (firstn lim d) in
  qsorted rev (map row_price rows) = true /\
  map row_level rows = seq 1 (List.length rows) /\
  Forall (fun r => row_side r = side) rows.
Proof.
  unfold side_sorted. destruct (keyed d) as [kd|] eqn:E; [|discriminate]. intros S P. cbv zeta.
  apply andb_true_iff in S as [_ S].
  set (rows := side_rows sid inst ts side 0 (firstn lim d)).
  destruct (side_rows_keyed sid inst ts side 0 (firstn lim d) (firstn lim kd)
              (keyed_firstn _ _ _ E) (forallb_firstn _ _ _ P)) as [H1 [H2 H3]].
  fold rows in H1, H2, H3.
  split; [rewrite H1, <- firstn_map; apply qsorted_firstn; exact S|].
  split; [|exact H3].
  rewrite H2. f_equal. rewrite <- (length_map row_level rows), H2, length_seq. reflexivity.
Qed.

(** The snapshot rows of a well-formed book list bids by descending and
    asks by ascending price, with levels numbered 1, 2, ... on each side. *)
Theorem to_snapshot_rows_ordered (b : OrderBookL2) (sid : string) (t : Z) (ml : option nat) :
  book_ok b ->
  qsorted true (bid_prices (to_snapshot_rows b sid t ml)) = true /\
  qsorted false (ask_prices (to_snapshot_rows b sid t ml)) = true /\
  map row_level (rows_of_side 1 (to_snapshot_rows b sid t ml)) =
    seq 1 (List.length (rows_of_side 1 (to_snapshot_rows b sid t ml))) /\
  map row_level (rows_of_side 2 (to_snapshot_rows b sid t ml)) =
    seq 1 (List.length (rows_of_side 2 (to_snapshot_rows b sid t ml))).
Proof.
  intro Hok. unfold to_snapshot_rows.
  destruct (is_valid b) eqn:V; [|repeat split].
  destruct (Hok V) as [Sb [Sa [Pb [Pa _]]]]. cbn [negb].
  set (lim := match ml with Some (S k) => S k | _ => max_depth b end).
  destruct (side_ok_rows true sid (inst_id b) t 1 lim _ Sb Pb) as [B1 [B2 B3]].
  destruct (side_ok_rows false sid (inst_id b) t 2 lim _ Sa Pa) as [A1 [A2 A3]].
  set (bs := side_rows sid (inst_id b) t 1 0 (firstn lim (bids b))) in *.
  set (as_ := side_rows sid (inst_id b) t 2 0 (firstn lim (asks b))) in *.
  assert (F1 : rows_of_side 1 (bs ++ as_) = bs).
  { unfold rows_of_side. rewrite filter_app, filter_all, filter_none, app_nil_r; [reflexivity| |].
    - eapply Forall_impl; [|exact A3]. intros r Hr. rewrite Hr. reflexivity.
    - eapply Forall_impl; [|exact B3]. intros r Hr. rewrite Hr. reflexivity. }
  assert (F2 : rows_of_side 2 (bs ++ as_) = as_).
  { unfold rows_of_side. rewrite filter_app, filter_none, filter_all; [reflexivity| |].
    - eapply Forall_impl; [|exact A3]. intros r Hr. rewrite Hr. reflexivity.
    - eapply Forall_impl; [|exact B3]. intros r Hr. rewrite Hr. reflexivity. }
  unfold bid_prices, ask_prices. fold (rows_of_side 1 (bs ++ as_)).
  rewrite F1, F2. repeat split; assumption.
Qed.
Lemma apply_updates_keeps_book_ok_witness :
  is_valid (snd (apply_updates book_btc gap_frame)) = true /\
  fst (fst (apply_updates book_btc gap_frame)) = true /\
  book_ok (snd (apply_updates book_btc gap_frame)).
Proof.
  assert (Hok : book_ok book_btc).
  { intros _. vm_compute.
    split; [reflexivity|]. split; [reflexivity|]. split; [reflexivity|]. split; [reflexivity|].
    split; (constructor; [simpl; intros [H|[]]; discriminate|constructor; [intros []|constructor]]). }
  destruct (apply_updates_keeps_book_ok book_btc gap_frame Hok
    ltac:(constructor; [|constructor; [|constructor]]; vm_compute; reflexivity)
    ltac:(constructor; [|constructor]; vm_compute; reflexivity))
    as [H1 [H2 H3]].
  split; [rewrite H2; vm_compute; reflexivity|].
  split; [apply H3; [vm_compute; reflexivity|]; split; vm_compute; discriminate|exact H1].
Defined.

Lemma to_snapshot_rows_ordered_witness :
  book_ok book_btc /\
  bid_prices (to_snapshot_rows book_btc "s" 0 None) = [FFin 100; FFin 99] /\
  qsorted true (bid_prices (to_snapshot_rows book_btc "s" 0 None)) = true.
Proof.
  assert (Hok : book_ok book_btc).
  { intros _. vm_compute.
    split; [reflexivity|]. split; [reflexivity|]. split; [reflexivity|]. split; [reflexivity|].
    split; (constructor; [simpl; intros [H|[]]; discriminate|constructor; [intros []|constructor]]). }
  split; [exact Hok|]. split; [vm_compute; reflexivity|].
  exact (proj1 (to_snapshot_rows_ordered book_btc "s" 0 None Hok)).
Defined.

Ltac solve_close_free :=
  autorewrite with client in *;
  repeat rewrite <- app_assoc;
  first [exists (@nil event); rewrite app_nil_r; split; reflexivity
        |eexists; split; reflexivity].

Lemma trades_flush_close_free wr : close_free (trades_flush wr).
Proof. intro c. unfold trades_flush, trades_flush_batch. flush_cases; solve_close_free. Qed.

Lemma ob_flush_buffer_close_free k meth wr : close_free (ob_flush_buffer k meth wr).
Proof. intro c. unfold ob_flush_buffer. flush_cases; solve_close_free. Qed.

Lemma guarded_flush_close_free k meth zero wr : close_free (guarded_flush k meth zero wr).
Proof. intro c. unfold guarded_flush, guarded_flush_batch. flush_cases; solve_close_free. Qed.

Lemma close_free_compose F G : close_free F -> close_free G -> close_free (fun c => G (F c)).
Proof.
  intros HF HG c. destruct (HF c) as [e1 [T1 C1]]. destruct (HG (F c)) as [e2 [T2 C2]].
  exists (e1 ++ e2). split; [rewrite T2, T1, app_assoc; reflexivity|].
  rewrite filter_app, C1, C2. reflexivity.
Qed.

Lemma ob_flush_close_free wr : close_free (ob_flush wr).
Proof.
  exact (close_free_compose _ _ (ob_flush_buffer_close_free _ _ wr) (ob_flush_buffer_close_free _ _ wr)).
Qed.

Lemma flush_all_handlers_close_free wr : close_free (flush_all_handlers wr).
Proof.
  unfold flush_all_handlers.
  repeat first [apply trades_flush_close_free | apply ob_flush_close_free
               | apply guarded_flush_close_free | apply close_free_compose].
Qed.

(** Shutdown closes the writer exactly once when one is configured and
    never otherwise: no flush emits a close, and [storage] is unchanged. *)
Theorem main_shutdown_closes_iff_storage (wr : writer) (c : client) :
  filter is_close (trace (main_shutdown wr c)) =
    filter is_close (trace c) ++ (if storage c then [EvClose] else []) /\
  storage (main_shutdown wr c) = storage c.
Proof.
  pose proof (dr_storage _ _ (flush_all_handlers_drains wr)) as Hs.
  destruct (flush_all_handlers_close_free wr (emit (EvLog LInfo "periodic_flush cancelled, final flush") c))
    as [e1 [T1 C1]].
  set (c1 := emit (EvLog LInfo "Final flush done")
               (flush_all_handlers wr (emit (EvLog LInfo "periodic_flush cancelled, final flush") c))).
  destruct (flush_all_handlers_close_free wr (emit (EvLog LInfo "defensive flush") c1)) as [e2 [T2 C2]].
  assert (S2 : storage (flush_all_handlers wr (emit (EvLog LInfo "defensive flush") c1)) = storage c).
  { rewrite Hs. unfold c1. autorewrite with client. rewrite Hs. autorewrite with client. reflexivity. }
  assert (F2 : filter is_close (trace (flush_all_handlers wr (emit (EvLog LInfo "defensive flush") c1)))
               = filter is_close (trace c)).
  { rewrite T2. autorewrite with client. unfold c1. autorewrite with client. rewrite T1.
    autorewrite with client. repeat rewrite filter_app. rewrite C1, C2. simpl.
    repeat rewrite app_nil_r. reflexivity. }
  unfold main_shutdown. simpl fst. fold c1.
  rewrite S2. destruct (storage c).
  - autorewrite with client. rewrite filter_app, F2. split; [reflexivity|exact S2].
  - rewrite F2, app_nil_r. split; [reflexivity|exact S2].
Qed.

(** The subscribe frame carries one argument for each pair of a
    configured channel and a configured instrument, and nothing else. *)
Theorem sub_payload_args (channels instruments : list string) :
  exists args, sub_payload channels instruments = WSSubscribe args /\
    (forall ch inst, In (ch, inst) args <-> In ch channels /\ In inst instruments) /\
    List.length args = (List.length channels * List.length instruments)%nat.
Proof.
  eexists. split; [reflexivity|]. split.
  - intros ch inst. rewrite in_flat_map. split.
    + intros [ch' [H1 H2]]. apply in_map_iff in H2. destruct H2 as [i [E H2]].
      injection E as <- <-. auto.
    + intros [H1 H2]. exists ch. split; [exact H1|]. apply in_map_iff. exists inst. auto.
  - induction channels as [|ch r IH]; simpl; [reflexivity|].
    rewrite length_app, length_map, IH. reflexivity.
Qed.

(** flush idempotence *)
Lemma trades_flush_empty_ok wr c :
  storage c = true -> (forall m p, wr m p = WOk) -> buf (trades_flush wr c) KTrades = [].
Proof.
  intros Hs Hw. unfold trades_flush, trades_flush_batch. rewrite Hs.
  destruct (buf c KTrades) eqn:E; [exact E|]. rewrite Hw. cbn -[emit assign_fresh buf].
  autorewrite with client. reflexivity.
Qed.

Lemma guarded_flush_empty_ok k meth zero wr c :
  (forall m p, wr m p = WOk) -> buf (guarded_flush k meth zero wr c) k = [].
Proof.
  intros Hw. unfold guarded_flush, guarded_flush_batch.
  destruct (buf c k) eqn:E; [exact E|].
  destruct (storage c); [rewrite Hw|]; cbn -[emit assign_fresh buf];
    autorewrite with client; reflexivity.
Qed.

Lemma flush_all_handlers_empties wr c :
  storage c = true -> (forall m p, wr m p = WOk) -> forall k, buf (flush_all_handlers wr c) k = [].
Proof.
  intros Hs Hw k.
  pose proof (fun k meth zero => dr_other _ _ (guarded_flush_drains k meth zero wr)) as Go.
  pose proof (dr_other _ _ (ob_flush_drains wr)) as Oo.
  unfold flush_all_handlers, funding_flush, mark_flush, tickers_flush, open_interest_flush.
  destruct k;
    repeat (rewrite Go by (simpl; intros [H|[]]; discriminate));
    try rewrite Oo by (simpl; intros [H|[H|[]]]; discriminate);
    first [apply guarded_flush_empty_ok; exact Hw
          |apply (ob_flush_empties wr)
          |apply trades_flush_empty_ok; assumption].
Qed.

Lemma trades_flush_nil wr c : buf c KTrades = [] -> trades_flush wr c = c.
Proof. intro H. unfold trades_flush. rewrite H. reflexivity. Qed.

Lemma ob_flush_buffer_nil k meth wr c : buf c k = [] -> ob_flush_buffer k meth wr c = c.
Proof. intro H. unfold ob_flush_buffer. rewrite H. reflexivity. Qed.

Lemma guarded_flush_nil k meth zero wr c : buf c k = [] -> guarded_flush k meth zero wr c = c.
Proof. intro H. unfold guarded_flush. rewrite H. reflexivity. Qed.

Lemma flush_all_handlers_on_empty wr c :
  (forall k, buf c k = []) -> flush_all_handlers wr c = c.
Proof.
  intro He. unfold flush_all_handlers, funding_flush, mark_flush, tickers_flush, open_interest_flush,
    ob_flush, flush_updates, flush_snapshots.
  rewrite (trades_flush_nil wr c (He _)).
  rewrite (ob_flush_buffer_nil _ _ wr c (He _)), (ob_flush_buffer_nil _ _ wr c (He _)).
  rewrite !(guarded_flush_nil _ _ _ wr c (He _)). reflexivity.
Qed.

(** With a writer configured that never raises, one pass of
    [flush_all_handlers] empties all seven buffers, and a second pass
    changes nothing (not even the log). *)
Theorem flush_all_handlers_idempotent (wr : writer) (c : client) :
  storage c = true -> (forall m p, wr m p = WOk) ->
  (forall k, buf (flush_all_handlers wr c) k = []) /\
  flush_all_handlers wr (flush_all_handlers wr c) = flush_all_handlers wr c.
Proof.
  intros Hs Hw. pose proof (flush_all_handlers_empties wr c Hs Hw) as He.
  split; [exact He|]. apply flush_all_handlers_on_empty. exact He.
Qed.

Lemma flush_all_handlers_idempotent_witness :
  storage client_with_snapshot = true /\ (forall m p, writer_ok m p = WOk) /\
  buf (flush_all_handlers writer_ok client_with_snapshot) KTrades = [] /\
  flush_all_handlers writer_ok (flush_all_handlers writer_ok client_with_snapshot) =
    flush_all_handlers writer_ok client_with_snapshot.
Proof.
  assert (Hs : storage client_with_snapshot = true) by reflexivity.
  assert (Hw : forall m p, writer_ok m p = WOk) by reflexivity.
  destruct (flush_all_handlers_idempotent writer_ok client_with_snapshot Hs Hw) as [H1 H2].
  split; [exact Hs|]. split; [exact Hw|]. split; [apply H1|exact H2].
Defined.


Lemma build_fields_keys fs d r :
  build_fields fs d = Ok r -> map fst r = map (fun f => fst (fst f)) fs.
Proof.
  revert r; induction fs as [|[[o k] cv] fs IH]; intros r H; cbn in *.
  - injection H as <-. reflexivity.
  - destruct (convert cv (dict_get k d)); cbn in H; [|discriminate].
    destruct (build_fields fs d) as [t|] eqn:E; cbn in H; [|discriminate].
    injection H as <-. simpl. rewrite (IH t eq_refl). reflexivity.
Qed.

Lemma build_fields_ok fs d :
  (exists r, build_fields fs d = Ok r) <->
  Forall (fun f => raises (convert (snd f) (dict_get (snd (fst f)) d)) = false) fs.
Proof.
  induction fs as [|[[o k] cv] fs IH]; cbn.
  - split; [intros _; constructor|intros _; eexists; reflexivity].
  - rewrite Forall_cons_iff, <- IH. cbn.
    destruct (convert cv (dict_get k d)); cbn;
      [destruct (build_fields fs d); cbn|];
      split; intro H; try destruct H as [r H]; try destruct H as [H1 [r H2]];
      try discriminate; eauto.
Qed.

Lemma build_fields_nil fs :
  build_fields fs [] = Ok (map (fun f => (fst (fst f), conv_default (snd f))) fs).
Proof.
  induction fs as [|[[o k] cv] fs IH]; cbn; [reflexivity|].
  rewrite IH. destruct cv; reflexivity.
Qed.

Lemma build_fields_null fs d o k cv r :
  In (o, k, cv) fs -> cv <> CStr -> build_fields fs ((k, PNone) :: d) <> Ok r.
Proof.
  revert r; induction fs as [|[[o' k'] cv'] fs IH]; intros r Hin Hc; cbn in *; [contradiction|].
  destruct Hin as [E|Hin].
  - injection E as -> -> ->. rewrite String.eqb_refl.
    destruct cv; [contradiction|discriminate|discriminate].
  - destruct (convert cv' _); cbn; [|discriminate].
    destruct (build_fields fs ((k, PNone) :: d)) as [t|] eqn:E; cbn; [|discriminate].
    exfalso. exact (IH t Hin Hc eq_refl).
Qed.

Lemma catch_vt_raise {A} (m : res A) e : catch_vt m = Raise e -> e = OverflowError.
Proof. destruct m as [a|[| |]]; cbn; congruence. Qed.



(** dict handlers *)
Lemma add_records_buf k fs what now data c :
  allocated c -> records_no_raise fs now data ->
  snd (add_records k fs what now data c) = false /\
  buf (fst (add_records k fs what now data c)) k = List.app (buf c k) (parsed_records fs now data).
Proof.
  unfold records_no_raise.
  revert c; induction data as [|d r IH]; intros c Ha Hn;
    cbn [add_records parsed_records flat_map fst snd].
  - rewrite app_nil_r. split; reflexivity.
  - inversion Hn as [|? ? Hd Hr]; subst.
    destruct (process_fields fs now d) as [[row|]|e]; [| |discriminate Hd].
    + destruct (IH (emit (EvLog LInfo ("Added " ++ what ++ " to batch")) (buf_extend k [RDict row] c)))
        as [H1 H2]; [apply allocated_emit; apply allocated_buf_extend; exact Ha|exact Hr|].
      split; [exact H1|]. rewrite H2.
      rewrite buf_emit, buf_extend_same by exact Ha. rewrite <- app_assoc. reflexivity.
    + destruct (IH (emit (EvLog LError ("Error processing " ++ what ++ " data")) c))
        as [H1 H2]; [apply allocated_emit; exact Ha|exact Hr|].
      split; [exact H1|]. rewrite H2, buf_emit. reflexivity.
Qed.

Lemma guarded_flush_batch_ok k meth zero wr c :
  (forall m p, wr m p = WOk) -> buf (guarded_flush_batch k meth zero wr c) k = [].
Proof.
  intros Hw. unfold guarded_flush_batch.
  destruct (buf c k) eqn:E; [exact E|].
  destruct (storage c); [rewrite Hw|]; cbn -[emit assign_fresh buf];
    autorewrite with client; reflexivity.
Qed.



(** trades *)
Lemma storage_buf_extend k xs c : storage (buf_extend k xs c) = storage c.
Proof. reflexivity. Qed.

Lemma storage_add_trades now data c : storage (fst (add_trades now data c)) = storage c.
Proof.
  revert c; induction data as [|t r IH]; intro c; simpl; [reflexivity|].
  destruct (process_trade now t) as [[row|]|e]; try rewrite IH; reflexivity.
Qed.

Lemma add_trades_no_raise now data c :
  trades_no_raise now data -> snd (add_trades now data c) = false.
Proof.
  unfold trades_no_raise. revert c; induction data as [|t r IH]; intros c Hn; simpl; [reflexivity|].
  inversion Hn as [|? ? Ht Hr]; subst.
  destruct (process_trade now t) as [[row|]|e]; [apply IH, Hr|apply IH, Hr|discriminate Ht].
Qed.


(** book map *)
Lemma book_get_put_same inst b bs : book_get inst (book_put inst b bs) = Some b.
Proof.
  induction bs as [|[k b'] r IH]; simpl; [rewrite String.eqb_refl; reflexivity|].
  destruct (String.eqb inst k) eqn:E; simpl; [rewrite E; reflexivity|rewrite E; exact IH].
Qed.

Lemma book_get_put_other inst' inst b bs :
  inst' <> inst -> book_get inst' (book_put inst b bs) = book_get inst' bs.
Proof.
  intro Hn. induction bs as [|[k b'] r IH]; simpl.
  - destruct (String.eqb inst' inst) eqn:E; [apply String.eqb_eq in E; contradiction|reflexivity].
  - destruct (String.eqb inst k) eqn:E; simpl.
    + apply String.eqb_eq in E. subst k.
      destruct (String.eqb inst' inst) eqn:E'; [apply String.eqb_eq in E'; contradiction|reflexivity].
    + destruct (String.eqb inst' k); [reflexivity|exact IH].
Qed.

Lemma books_buf_extend k xs c : books (buf_extend k xs c) = books c.
Proof. reflexivity. Qed.
Lemma books_emit e c : books (emit e c) = books c.
Proof. reflexivity. Qed.
Lemma books_assign_fresh k c : books (assign_fresh k c) = books c.
Proof. reflexivity. Qed.

Lemma books_ob_flush_buffer k meth wr c : books (ob_flush_buffer k meth wr c) = books c.
Proof. unfold ob_flush_buffer. flush_cases; reflexivity. Qed.

Lemma books_generate wr sid now inst c :
  books (generate_snapshot_for_instrument wr sid now inst c) = books c.
Proof.
  unfold generate_snapshot_for_instrument.
  destruct (book_get inst (books c)) as [b|]; [|reflexivity].
  destruct (negb (is_valid b)); [reflexivity|].
  destruct (to_snapshot_rows _ _ _ _); [reflexivity|].
  destruct (_ <=? _)%nat; [unfold flush_snapshots; rewrite books_ob_flush_buffer|]; reflexivity.
Qed.

Lemma on_increment_one_other wr sid now inst c f inst' :
  inst' <> inst ->
  book_get inst' (books (fst (on_increment_one wr sid now inst c f))) = book_get inst' (books c).
Proof.
  intro Hn. unfold on_increment_one.
  assert (Hc1 : forall c1, book_get inst' (books c1) = book_get inst' (books c) ->
            book_get inst' (books (fst (match process_update f inst now with
                                   | Ok (Some u) => (buf_extend KUpdates [RUpdate u] c1, false)
                                   | Ok None => (emit (EvLog LError "Error processing update") c1, false)
                                   | Raise _ => (c1, true) end)))
            = book_get inst' (books c)).
  { intros c1 H. destruct (process_update f inst now) as [[u|]|e]; exact H. }
  apply Hc1. clear Hc1.
  destruct (book_get inst (books c)) as [b|]; [|reflexivity].
  destruct (is_valid b); [|reflexivity].
  destruct (apply_updates b f) as [[success ck] b1].
  destruct ck.
  - simpl. rewrite book_get_put_other by exact Hn. destruct success; reflexivity.
  - unfold resubscribe_orderbook. rewrite books_emit.
    set (c3 := generate_snapshot_for_instrument wr sid now inst
                 (emit (EvLog LWarning "Checksum/sequence mismatch")
                    (set_books (book_put inst b1 (books c))
                       (if success then c
                        else emit (EvLog LError ("Failed to apply update to OrderBookL2[" ++ inst ++ "]")) c)))).
    assert (H3 : book_get inst' (books c3) = book_get inst' (books c)).
    { unfold c3. rewrite books_generate, books_emit. simpl. apply book_get_put_other. exact Hn. }
    destruct (book_get inst (books c3)); [simpl; rewrite book_get_put_other by exact Hn|]; exact H3.
Qed.

Lemma on_increment_loop_other wr sid now inst data c inst' :
  inst' <> inst ->
  book_get inst' (books (fst (on_increment_loop wr sid now inst data c))) = book_get inst' (books c).
Proof.
  intro Hn. revert c; induction data as [|f r IH]; intro c; simpl; [reflexivity|].
  pose proof (on_increment_one_other wr sid now inst c f inst' Hn) as H.
  destruct (on_increment_one wr sid now inst c f) as [c1 raised]. simpl in H.
  destruct raised; simpl; [exact H|]. rewrite IH. exact H.
Qed.

Lemma books_on_increment_tail (wr : writer) c1 (raised : bool) :
  books (if raised then emit (EvLog LError "Error processing orderbook update") c1
         else if (ob_batch_max c1 <=? List.length (buf c1 KUpdates))%nat
         then flush_updates wr c1 else c1) = books c1.
Proof.
  destruct raised; [reflexivity|].
  destruct (_ <=? _)%nat; [unfold flush_updates; apply books_ob_flush_buffer|reflexivity].
Qed.

(** [on_increment] for one instrument never changes the book of another. *)
Theorem on_increment_other_books (wr : writer) (sid : string) (now_ms : Z) (inst : string)
    (data : list book_frame) (c : client) (inst' : string) :
  inst' <> inst ->
  book_get inst' (books (on_increment wr sid now_ms inst data c)) = book_get inst' (books c).
Proof.
  intro Hn. unfold on_increment. destruct data as [|f r]; [reflexivity|].
  set (c0 := match book_get inst (books c) with
             | Some _ => c
             | None => set_books (book_put inst (new_book inst (ob_max_depth c)) (books c))
                         (emit (EvLog LWarning "Received update but no book exists") c)
             end).
  assert (H0 : book_get inst' (books c0) = book_get inst' (books c)).
  { unfold c0. destruct (book_get inst (books c)); [reflexivity|].
    simpl. apply book_get_put_other. exact Hn. }
  pose proof (on_increment_loop_other wr sid now_ms inst (f :: r) c0 inst' Hn) as HL.
  destruct (on_increment_loop wr sid now_ms inst (f :: r) c0) as [c1 raised]. simpl in HL.
  rewrite books_on_increment_tail. rewrite HL. exact H0.
Qed.

Lemma on_increment_other_books_witness :
  "ETH-USDT-SWAP" <> btc /\
  book_get btc (books (on_increment writer_ok "s" 5 "ETH-USDT-SWAP" [gap_frame] client0)) = Some book_btc.
Proof.
  assert (Hn : btc <> "ETH-USDT-SWAP") by discriminate.
  split; [discriminate|].
  rewrite (on_increment_other_books writer_ok "s" 5 "ETH-USDT-SWAP" [gap_frame] client0 btc Hn).
  reflexivity.
Defined.

Lemma on_increment_one_invalid wr sid now inst c f :
  (forall b, book_get inst (books c) = Some b -> is_valid b = false) ->
  on_increment_one wr sid now inst c f =
    match process_update f inst now with
    | Ok (Some u) => (buf_extend KUpdates [RUpdate u] c, false)
    | Ok None => (emit (EvLog LError "Error processing update") c, false)
    | Raise _ => (c, true)
    end.
Proof.
  intro Hv. unfold on_increment_one.
  replace (match book_get inst (books c) with
           | Some b => if is_valid b then _ else c
           | None => c end) with c.
  2: { destruct (book_get inst (books c)) as [b|]; [rewrite (Hv b eq_refl)|]; reflexivity. }
  reflexivity.
Qed.

Lemma on_increment_loop_invalid wr sid now inst data c :
  allocated c ->
  (forall b, book_get inst (books c) = Some b -> is_valid b = false) ->
  updates_no_raise inst now data ->
  snd (on_increment_loop wr sid now inst data c) = false /\
  books (fst (on_increment_loop wr sid now inst data c)) = books c /\
  ob_batch_max (fst (on_increment_loop wr sid now inst data c)) = ob_batch_max c /\
  buf (fst (on_increment_loop wr sid now inst data c)) KUpdates =
    buf c KUpdates ++ parsed_updates inst now data /\
  (exists ext, trace (fst (on_increment_loop wr sid now inst data c)) = trace c ++ ext).
Proof.
  revert c; induction data as [|f r IH]; intros c Ha Hv Hn.
  - simpl. rewrite app_nil_r. split; [reflexivity|]. split; [reflexivity|]. split; [reflexivity|].
    split; [reflexivity|]. exists []. rewrite app_nil_r. reflexivity.
  - inversion Hn as [|? ? Hf Hr]; subst. simpl on_increment_loop.
    rewrite (on_increment_one_invalid wr sid now inst c f Hv).
    unfold parsed_updates; cbn [flat_map]; fold (parsed_updates inst now r).
    destruct (process_update f inst now) as [[u|]|e] eqn:E; [| |discriminate].
    + assert (Ha1 : allocated (buf_extend KUpdates [RUpdate u] c)) by (apply allocated_buf_extend; exact Ha).
      destruct (IH (buf_extend KUpdates [RUpdate u] c) Ha1 Hv Hr) as [R [B [M [U [ext T]]]]].
      repeat split; [exact R|exact B|exact M| |].
      * rewrite U, buf_extend_same by exact Ha. rewrite <- app_assoc. reflexivity.
      * exists ext. exact T.
    + assert (Ha1 : allocated (emit (EvLog LError "Error processing update") c))
        by (apply allocated_emit; exact Ha).
      destruct (IH _ Ha1 Hv Hr) as [R [B [M [U [ext T]]]]].
      repeat split; [exact R|exact B|exact M| |].
      * rewrite U, buf_emit. reflexivity.
      * exists (EvLog LError "Error processing update" :: ext). rewrite T. simpl.
        rewrite <- app_assoc. reflexivity.
Qed.


(** on_snapshot *)
Lemma apply_snapshot_indep b b' f :
  fst (apply_snapshot b f) = fst (apply_snapshot b' f) /\
  is_valid (snd (apply_snapshot b f)) = fst (apply_snapshot b f) /\
  bids (snd (apply_snapshot b f)) = bids (snd (apply_snapshot b' f)) /\
  asks (snd (apply_snapshot b f)) = asks (snd (apply_snapshot b' f)).
Proof.
  destruct (snapshot_side_sorted true (bf_bids f)) as [bs [Eb _]].
  destruct (snapshot_side_sorted false (bf_asks f)) as [as_ [Ea _]].
  unfold apply_snapshot. cbv zeta. rewrite Eb, Ea.
  destruct (py_int (get_or (bf_ts f) (PInt 0)));
    [destruct (py_int (get_or (bf_checksum f) (PInt 0)))|]; cbn; repeat split.
Qed.

Lemma apply_snapshot_ts_ok b f now :
  fst (apply_snapshot b f) = true -> py_int (get_or (bf_ts f) (PInt now)) <> None.
Proof.
  unfold apply_snapshot. cbv zeta.
  destruct (py_sorted true _); [|discriminate].
  destruct (py_sorted false _); [|discriminate].
  destruct (py_int (get_or (bf_ts f) (PInt 0))) eqn:Et; [|discriminate].
  intros _. destruct (bf_ts f); simpl in *; [rewrite Et|]; discriminate.
Qed.

Lemma on_snapshot_one_no_raise now inst c x : snd (on_snapshot_one now inst c x) = false.
Proof.
  destruct x as [f sid]. unfold on_snapshot_one.
  destruct (book_get inst (books c)) as [b|]; [|reflexivity].
  pose proof (apply_snapshot_ts_ok b f now) as Ht.
  destruct (apply_snapshot b f) as [success b1]. simpl in Ht.
  destruct success; [|reflexivity].
  destruct (py_int (get_or (bf_ts f) (PInt now))); [|exfalso; apply (Ht eq_refl); reflexivity].
  destruct (to_snapshot_rows _ _ _ _); reflexivity.
Qed.

Lemma on_snapshot_loop_no_raise now inst data c : snd (on_snapshot_loop now inst data c) = false.
Proof.
  revert c; induction data as [|x r IH]; intro c; simpl; [reflexivity|].
  pose proof (on_snapshot_one_no_raise now inst c x) as H.
  destruct (on_snapshot_one now inst c x) as [c1 raised]. simpl in H. subst raised. apply IH.
Qed.

Lemma on_snapshot_one_book now inst c x b :
  book_get inst (books c) = Some b ->
  book_get inst (books (fst (on_snapshot_one now inst c x))) = Some (snd (apply_snapshot b (fst x))).
Proof.
  intro H. destruct x as [f sid]. unfold on_snapshot_one. rewrite H. simpl fst.
  destruct (apply_snapshot b f) as [success b1]. simpl.
  destruct success.
  - destruct (py_int (get_or (bf_ts f) (PInt now))); simpl; [|apply book_get_put_same].
    destruct (to_snapshot_rows _ _ _ _); simpl; apply book_get_put_same.
  - apply book_get_put_same.
Qed.

Lemma on_snapshot_loop_last now inst pre x c b :
  book_get inst (books c) = Some b ->
  exists b0, book_get inst (books (fst (on_snapshot_loop now inst (pre ++ [x]) c))) =
               Some (snd (apply_snapshot b0 (fst x))).
Proof.
  revert c b; induction pre as [|y pre IH]; intros c b H; simpl.
  - pose proof (on_snapshot_one_no_raise now inst c x) as R.
    pose proof (on_snapshot_one_book now inst c x b H) as B.
    destruct (on_snapshot_one now inst c x) as [c1 raised]. simpl in R, B. subst raised.
    exists b. exact B.
  - pose proof (on_snapshot_one_no_raise now inst c y) as R.
    pose proof (on_snapshot_one_book now inst c y b H) as B.
    destruct (on_snapshot_one now inst c y) as [c1 raised]. simpl in R, B. subst raised.
    exact (IH c1 _ B).
Qed.

(** [on_snapshot]: the snapshot loop never reaches the [except] handler,
    and afterwards the instrument's book has exactly the sides and validity
    that the last frame of the message gives, whatever the book was
    before. *)
Theorem on_snapshot_last_frame_wins (wr : writer) (now_ms : Z) (inst : string)
    (pre : list (book_frame * string)) (f : book_frame) (sid : string) (c : client) :
  (forall data c0, snd (on_snapshot_loop now_ms inst data c0) = false) /\
  exists b, book_get inst (books (on_snapshot wr now_ms inst (pre ++ [(f, sid)]) c)) = Some b /\
    bids b = bids (snd (apply_snapshot (new_book inst 0) f)) /\
    asks b = asks (snd (apply_snapshot (new_book inst 0) f)) /\
    is_valid b = fst (apply_snapshot (new_book inst 0) f).
Proof.
  split; [intros; apply on_snapshot_loop_no_raise|].
  unfold on_snapshot.
  destruct (pre ++ [(f, sid)]) as [|y ys] eqn:Ed; [destruct pre; discriminate|]. rewrite <- Ed.
  set (c0 := match book_get inst (books c) with
             | Some _ => c
             | None => emit (EvLog LInfo ("Created OrderBookL2 for " ++ inst))
                         (set_books (book_put inst (new_book inst (ob_max_depth c)) (books c)) c)
             end).
  assert (H0 : exists b, book_get inst (books c0) = Some b).
  { unfold c0. destruct (book_get inst (books c)) as [b|] eqn:E; [exists b; exact E|].
    eexists. simpl. apply book_get_put_same. }
  destruct H0 as [b H0].
  destruct (on_snapshot_loop_last now_ms inst pre (f, sid) c0 b H0) as [b0 Hb].
  pose proof (on_snapshot_loop_no_raise now_ms inst (pre ++ [(f, sid)]) c0) as R.
  destruct (on_snapshot_loop now_ms inst (pre ++ [(f, sid)]) c0) as [c1 raised].
  simpl in R, Hb. subst raised.
  destruct (apply_snapshot_indep b0 (new_book inst 0) f) as [E1 [E2 [E3 E4]]].
  exists (snd (apply_snapshot b0 f)).
  split; [|split; [exact E3|split; [exact E4|rewrite E2; exact E1]]].
  destruct (_ <=? _)%nat; [unfold flush_snapshots; rewrite books_ob_flush_buffer|]; exact Hb.
Qed.

(** on_reconnect *)
Lemma allocated_ob_flush_buffer k meth wr c : allocated c -> allocated (ob_flush_buffer k meth wr c).
Proof.
  intro Ha. unfold ob_flush_buffer. flush_cases;
    repeat first [apply allocated_emit | apply allocated_assign_fresh]; exact Ha.
Qed.

Lemma generate_keeps wr sid now inst c :
  allocated c ->
  let c' := generate_snapshot_for_instrument wr sid now inst c in
  allocated c' /\ extends c c' /\ storage c' = storage c /\
  forall r, In r (buf c KSnapshots) -> storage c = true -> In r (buf c' KSnapshots) \/ handed r c c'.
Proof.
  intro Ha. cbv zeta. unfold generate_snapshot_for_instrument.
  destruct (book_get inst (books c)) as [b|];
    [|split; [exact Ha|split; [apply extends_refl|split; [reflexivity|intros r Hr _; left; exact Hr]]]].
  destruct (negb (is_valid b));
    [split; [exact Ha|split; [apply extends_refl|split; [reflexivity|intros r Hr _; left; exact Hr]]]|].
  destruct (to_snapshot_rows _ _ _ _) as [|row rows];
    [split; [exact Ha|split; [apply extends_refl|split; [reflexivity|intros r Hr _; left; exact Hr]]]|].
  set (c1 := buf_extend KSnapshots (map RSnapRow (row :: rows)) c).
  assert (A1 : allocated c1) by (apply allocated_buf_extend; exact Ha).
  assert (X1 : extends c c1) by (exists []; rewrite app_nil_r; reflexivity).
  assert (I1 : forall r, In r (buf c KSnapshots) -> In r (buf c1 KSnapshots)).
  { intros r Hr. unfold c1. rewrite buf_extend_same by exact Ha. apply in_or_app. left. exact Hr. }
  assert (S1 : storage c1 = storage c) by reflexivity.
  clearbody c1.
  destruct (_ <=? _)%nat.
  - pose proof (ob_flush_buffer_drains KSnapshots "write_orderbook_snapshots" wr) as D.
    unfold flush_snapshots.
    split; [apply allocated_ob_flush_buffer; exact A1|].
    split; [eapply extends_trans; [exact X1|apply (dr_ext _ _ D)]|].
    split; [rewrite (dr_storage _ _ D); exact S1|].
    intros r Hr Hs. right. eapply handed_prefix; [exact X1|].
    apply (dr_hand _ _ D c1 KSnapshots r); [left; reflexivity| |apply I1; exact Hr].
    rewrite S1. exact Hs.
  - split; [exact A1|]. split; [exact X1|]. split; [exact S1|].
    intros r Hr _. left. apply I1. exact Hr.
Qed.

Lemma fold_generate_keeps wr sid_of now insts c :
  allocated c ->
  let c' := fold_left (fun c' inst => generate_snapshot_for_instrument wr (sid_of inst) now inst c') insts c in
  allocated c' /\ extends c c' /\ storage c' = storage c /\ books c' = books c /\
  forall r, In r (buf c KSnapshots) -> storage c = true -> In r (buf c' KSnapshots) \/ handed r c c'.
Proof.
  cbv zeta. revert c; induction insts as [|i l IH]; intros c Ha; simpl.
  - split; [exact Ha|split; [apply extends_refl|split; [reflexivity|split; [reflexivity|]]]].
    intros r Hr _. left. exact Hr.
  - destruct (generate_keeps wr (sid_of i) now i c Ha) as [A1 [X1 [S1 H1]]].
    pose proof (books_generate wr (sid_of i) now i c) as B1.
    set (c1 := generate_snapshot_for_instrument wr (sid_of i) now i c) in *.
    destruct (IH c1 A1) as [A2 [X2 [S2 [B2 H2]]]].
    split; [exact A2|]. split; [eapply extends_trans; eassumption|].
    split; [rewrite S2; exact S1|]. split; [rewrite B2; exact B1|].
    intros r Hr Hs. destruct (H1 r Hr Hs) as [Hr1|Hh].
    + destruct (H2 r Hr1 ltac:(rewrite S1; exact Hs)) as [Hr2|Hh2].
      * left. exact Hr2.
      * right. eapply handed_prefix; eassumption.
    + right. eapply handed_extends; eassumption.
Qed.

(** [on_reconnect] leaves the books unchanged and the snapshot buffer
    empty; with storage every snapshot row pending before the call is
    handed to the writer. *)
Theorem on_reconnect_flushes (wr : writer) (sid_of : string -> string) (now_ms : Z) (c : client) :
  books (on_reconnect wr sid_of now_ms c) = books c /\
  buf (on_reconnect wr sid_of now_ms c) KSnapshots = [] /\
  (allocated c -> storage c = true ->
   forall r, In r (buf c KSnapshots) -> handed r c (on_reconnect wr sid_of now_ms c)).
Proof.
  unfold on_reconnect.
  set (c0 := emit (EvLog LInfo "on_reconnect: generating snapshots") c).
  set (cf := fold_left (fun c' inst => generate_snapshot_for_instrument wr (sid_of inst) now_ms inst c')
               (map fst (books c0)) c0).
  assert (Bf : books cf = books c).
  { unfold cf. clear cf.
    assert (G : forall l c', books (fold_left (fun c' inst =>
                  generate_snapshot_for_instrument wr (sid_of inst) now_ms inst c') l c') = books c').
    { induction l as [|i l IH]; intro c'; simpl; [reflexivity|]. rewrite IH. apply books_generate. }
    rewrite G. reflexivity. }
  split; [unfold flush_snapshots; rewrite books_ob_flush_buffer; exact Bf|].
  split; [apply ob_flush_buffer_empties|].
  intros Ha Hs r Hr.
  assert (A0 : allocated c0) by (apply allocated_emit; exact Ha).
  destruct (fold_generate_keeps wr sid_of now_ms (map fst (books c0)) c0 A0) as [Af [Xf [Sf [_ Hf]]]].
  fold cf in Af, Xf, Sf, Hf.
  pose proof (ob_flush_buffer_drains KSnapshots "write_orderbook_snapshots" wr) as D.
  unfold flush_snapshots.
  eapply handed_prefix; [apply extends_emit|]. fold c0.
  destruct (Hf r Hr Hs) as [Hr'|Hh].
  - eapply handed_prefix; [exact Xf|].
    apply (dr_hand _ _ D cf KSnapshots r); [left; reflexivity| |exact Hr'].
    rewrite Sf. exact Hs.
  - eapply handed_extends; [exact Hh|]. apply (dr_ext _ _ D).
Qed.

Lemma on_reconnect_flushes_witness :
  allocated client_with_snapshot /\ storage client_with_snapshot = true /\
  In sample_snap_row (buf client_with_snapshot KSnapshots) /\
  handed sample_snap_row client_with_snapshot
    (on_reconnect writer_ok (fun _ => "snap-2") 5 client_with_snapshot).
Proof.
  assert (Ha : allocated client_with_snapshot) by (intro k; destruct k; vm_compute; lia).
  assert (Hs : storage client_with_snapshot = true) by reflexivity.
  assert (Hr : In sample_snap_row (buf client_with_snapshot KSnapshots)) by (vm_compute; left; reflexivity).
  split; [exact Ha|]. split; [exact Hs|]. split; [exact Hr|].
  exact (proj2 (proj2 (on_reconnect_flushes writer_ok (fun _ => "snap-2") 5 client_with_snapshot)) Ha Hs _ Hr).
Defined.


Lemma tick_fold sid_of now depth bs c g :
  allocated c ->
  let r := fold_left (snapshot_tick_step sid_of now depth) bs (c, g) in
  allocated (fst r) /\ books (fst r) = books c /\ (g <= snd r)%nat /\
  (List.length (buf c KSnapshots) <= List.length (buf (fst r) KSnapshots))%nat /\
  ((exists inst b, In (inst, b) bs /\ is_valid b = true /\
      to_snapshot_rows b (sid_of inst) (event_ts b now) (Some depth) <> []) ->
   (0 < snd r)%nat /\ (0 < List.length (buf (fst r) KSnapshots))%nat).
Proof.
  cbv zeta. revert c g; induction bs as [|[inst b] l IH]; intros c g Ha; cbn [fold_left fst snd In].
  - split; [exact Ha|split; [reflexivity|split; [lia|split; [lia|]]]].
    intros [i [b' [[] _]]].
  - destruct (is_valid b) eqn:V.
    + destruct (to_snapshot_rows b (sid_of inst) (event_ts b now) (Some depth)) as [|row rows] eqn:R.
      * replace (snapshot_tick_step sid_of now depth (c, g) (inst, b)) with (c, g)
          by (unfold snapshot_tick_step; rewrite V, R; reflexivity).
        destruct (IH c g Ha) as [A [B [G [L E]]]].
        split; [exact A|split; [exact B|split; [exact G|split; [exact L|]]]].
        intros [i [b' [[Eq|Hin] [V' R']]]]; [injection Eq as <- <-; contradiction|].
        apply E. exists i, b'. auto.
      * replace (snapshot_tick_step sid_of now depth (c, g) (inst, b))
          with (buf_extend KSnapshots (map RSnapRow (row :: rows)) c, S g)
          by (unfold snapshot_tick_step; rewrite V, R; reflexivity).
        set (c1 := buf_extend KSnapshots (map RSnapRow (row :: rows)) c).
        assert (A1 : allocated c1) by (apply allocated_buf_extend; exact Ha).
        assert (L1 : List.length (buf c1 KSnapshots) = (List.length (buf c KSnapshots) + S (List.length rows))%nat).
        { unfold c1. rewrite buf_extend_same by exact Ha. rewrite length_app. simpl. rewrite length_map. reflexivity. }
        assert (B1 : books c1 = books c) by reflexivity.
        clearbody c1.
        destruct (IH c1 (S g) A1) as [A [B [G [L E]]]].
        split; [exact A|split; [rewrite B; exact B1|split; [lia|split; [lia|]]]].
        intros _. lia.
    + replace (snapshot_tick_step sid_of now depth (c, g) (inst, b)) with (c, g)
        by (unfold snapshot_tick_step; rewrite V; reflexivity).
      destruct (IH c g Ha) as [A [B [G [L E]]]].
      split; [exact A|split; [exact B|split; [exact G|split; [exact L|]]]].
      intros [i [b' [[Eq|Hin] [V' R']]]]; [injection Eq as <- <-; congruence|].
      apply E. exists i, b'. auto.
Qed.

Lemma tick_step_books sid_of now depth acc ib :
  books (fst (snapshot_tick_step sid_of now depth acc ib)) = books (fst acc).
Proof.
  destruct acc as [c g], ib as [inst b]. unfold snapshot_tick_step.
  destruct (negb (is_valid b)); [reflexivity|].
  destruct (to_snapshot_rows _ _ _ _); reflexivity.
Qed.

Lemma tick_fold_books sid_of now depth bs c g :
  books (fst (fold_left (snapshot_tick_step sid_of now depth) bs (c, g))) = books c.
Proof.
  change c with (fst (c, g)) at 2. generalize (c, g) as acc.
  induction bs as [|ib l IH]; intro acc; cbn [fold_left]; [reflexivity|].
  rewrite IH. apply tick_step_books.
Qed.

(** A tick of [periodic_snapshots] leaves the books unchanged, and if any
    valid book produced rows the snapshot buffer is flushed to empty. *)
Theorem periodic_snapshots_tick_flushes (wr : writer) (sid_of : string -> string) (now_ms : Z)
    (c : client) :
  books (periodic_snapshots_tick wr sid_of now_ms c) = books c /\
  (allocated c ->
   (exists inst b, In (inst, b) (books c) /\ is_valid b = true /\
      to_snapshot_rows b (sid_of inst) (event_ts b now_ms) (Some (ob_max_depth c)) <> []) ->
   buf (periodic_snapshots_tick wr sid_of now_ms c) KSnapshots = []).
Proof.
  unfold periodic_snapshots_tick.
  destruct (books c) as [|ib bs] eqn:Eb.
  - split; [exact Eb|]. intros _ [i [b [[] _]]].
  - pose proof (tick_fold_books sid_of now_ms (ob_max_depth c) (ib :: bs) c 0) as FB.
    pose proof (tick_fold sid_of now_ms (ob_max_depth c) (ib :: bs) c 0) as FP.
    destruct (fold_left (snapshot_tick_step sid_of now_ms (ob_max_depth c)) (ib :: bs) (c, 0%nat))
      as [c1 g] eqn:Ef. simpl in FB, FP.
    unfold flush_snapshots. split.
    + destruct (_ <=? _)%nat; [rewrite books_ob_flush_buffer; rewrite FB; exact Eb|].
      destruct (_ && _); [rewrite books_ob_flush_buffer|]; rewrite FB; exact Eb.
    + intros Ha Hex. destruct (FP Ha) as [_ [_ [_ [_ E]]]].
      destruct (E Hex) as [G L].
      destruct (_ <=? _)%nat; [apply ob_flush_buffer_empties|].
      apply Nat.ltb_lt in G. apply Nat.ltb_lt in L. rewrite G, L. simpl.
      apply ob_flush_buffer_empties.
Qed.

Lemma periodic_snapshots_tick_flushes_witness :
  allocated client0 /\
  In (btc, book_btc) (books client0) /\ is_valid book_btc = true /\
  to_snapshot_rows book_btc "snap-3" (event_ts book_btc 5) (Some (ob_max_depth client0)) <> [] /\
  buf (periodic_snapshots_tick writer_ok (fun _ => "snap-3") 5 client0) KSnapshots = [].
Proof.
  assert (Ha : allocated client0) by (intro k; destruct k; vm_compute; lia).
  assert (Hin : In (btc, book_btc) (books client0)) by (left; reflexivity).
  assert (Hv : is_valid book_btc = true) by (vm_compute; reflexivity).
  assert (Hr : to_snapshot_rows book_btc "snap-3" (event_ts book_btc 5) (Some (ob_max_depth client0)) <> [])
    by (vm_compute; discriminate).
  split; [exact Ha|]. split; [exact Hin|]. split; [exact Hv|]. split; [exact Hr|].
  apply (proj2 (periodic_snapshots_tick_flushes writer_ok (fun _ => "snap-3") 5 client0) Ha).
  exists btc, book_btc. split; [exact Hin|]. split; [exact Hv|exact Hr].
Defined.

(** process_update *)
Lemma parse_levels_In p s lv :
  In (p, s) (parse_levels lv) <->
  (exists rest, In (LList (p :: s :: rest)) lv) /\ py_float_str p <> None /\ py_float_str s <> None.
Proof.
  induction lv as [|l r IH]; simpl.
  - split; [intros []|intros [[rest []] _]].
  - destruct l as [[|p' [|s' rest']]|].
    + rewrite IH. split; [intros [[rest H] Hp]; split; [exists rest; right; exact H|exact Hp]|].
      intros [[rest [H|H]] Hp]; [discriminate|split; [exists rest; exact H|exact Hp]].
    + rewrite IH. split; [intros [[rest H] Hp]; split; [exists rest; right; exact H|exact Hp]|].
      intros [[rest [H|H]] Hp]; [discriminate|split; [exists rest; exact H|exact Hp]].
    + destruct (py_float_str p') as [qp|] eqn:Ep; destruct (py_float_str s') as [qs|] eqn:Es; simpl;
        rewrite IH.
      * split.
        -- intros [E|[[rest H] Hp]].
           ++ injection E as <- <-. split; [exists rest'; left; reflexivity|].
              rewrite Ep, Es. split; discriminate.
           ++ split; [exists rest; right; exact H|exact Hp].
        -- intros [[rest [E|H]] Hp].
           ++ injection E as <- <- _. left. reflexivity.
           ++ right. split; [exists rest; exact H|exact Hp].
      * split; [intros [[rest H] Hp]; split; [exists rest; right; exact H|exact Hp]|].
        intros [[rest [E|H]] [Hp Hs]]; [injection E as <- <- _; contradiction|].
        split; [exists rest; exact H|split; assumption].
      * split; [intros [[rest H] Hp]; split; [exists rest; right; exact H|exact Hp]|].
        intros [[rest [E|H]] [Hp Hs]]; [injection E as <- <- _; contradiction|].
        split; [exists rest; exact H|split; assumption].
      * split; [intros [[rest H] Hp]; split; [exists rest; right; exact H|exact Hp]|].
        intros [[rest [E|H]] [Hp Hs]]; [injection E as <- <- _; contradiction|].
        split; [exists rest; exact H|split; assumption].
    + rewrite IH. split; [intros [[rest H] Hp]; split; [exists rest; right; exact H|exact Hp]|].
      intros [[rest [H|H]] Hp]; [discriminate|split; [exists rest; exact H|exact Hp]].
Qed.

(** [_process_update] returns a row iff [ts] and [checksum] are accepted
    by [int()], and the row carries those two integers; the only exception
    that escapes it is an [OverflowError] (from [int] of an infinite
    float); the row's deltas hold exactly the [[price, size, ...]] levels of
    the frame whose price and size both parse as Python floats (zero sizes,
    exponents and [nan] included). *)
Theorem process_update_contract (f : book_frame) (inst : string) (ts_ingest_ms : Z) :
  ((exists u, process_update f inst ts_ingest_ms = Ok (Some u)) <->
     py_int (get_or (bf_ts f) (PInt 0)) <> None /\ py_int (get_or (bf_checksum f) (PInt 0)) <> None) /\
  (forall e, process_update f inst ts_ingest_ms = Raise e -> e = OverflowError) /\
  (forall u, process_update f inst ts_ingest_ms = Ok (Some u) ->
     u_instId u = inst /\ u_ts_ingest_ms u = ts_ingest_ms /\
     py_int (get_or (bf_ts f) (PInt 0)) = Some (u_ts_event_ms u) /\
     py_int (get_or (bf_checksum f) (PInt 0)) = Some (u_checksum u) /\
     (forall p s, In (p, s) (u_bids_delta u) <->
        (exists rest, In (LList (p :: s :: rest)) (bf_bids f)) /\
        py_float_str p <> None /\ py_float_str s <> None) /\
     (forall p s, In (p, s) (u_asks_delta u) <->
        (exists rest, In (LList (p :: s :: rest)) (bf_asks f)) /\
        py_float_str p <> None /\ py_float_str s <> None)).
Proof.
  split; [|split; [intro e; apply catch_vt_raise|]];
    unfold process_update, py_int, ok_opt;
    destruct (py_int_r (get_or (bf_ts f) (PInt 0))) as [ts|[| |]];
    try destruct (py_int_r (get_or (bf_checksum f) (PInt 0))) as [cs|[| |]]; cbn.
  all: try (split; [intros [u E]; discriminate|intros [H1 H2]; congruence]).
  all: try (split; [intros _; split; discriminate|intros _; eexists; reflexivity]).
  all: try (intros u E; discriminate).
  intros u E. injection E as <-. cbn.
  split; [reflexivity|]. split; [reflexivity|]. split; [reflexivity|]. split; [reflexivity|].
  split; intros p s; apply parse_levels_In.
Qed.




Lemma process_update_contract_witness :
  exists u, process_update gap_frame btc 5 = Ok (Some u) /\ In ("98", "3") (u_bids_delta u).
Proof.
  destruct (process_update_contract gap_frame btc 5) as [H1 [_ H2]].
  assert (Hs : exists u, process_update gap_frame btc 5 = Ok (Some u)).
  { apply H1. split; vm_compute; discriminate. }
  destruct Hs as [u E]. exists u. split; [exact E|].
  destruct (H2 u E) as [_ [_ [_ [_ [Hb _]]]]]. apply Hb.
  split; [exists []; right; left; reflexivity|]. split; vm_compute; discriminate.
Defined.
